(** * filter_middleware_patch.py: a shallow embedding and its properties

    The script reads a patch file as a list of lines, drops everything
    before the first line that starts with [diff --git], keeps the diff
    sections whose header matches the regular expression
    [diff --git a/middleware/<group 1> b/middleware/<group 2>] (both groups
    greedy runs of characters other than the newline), rewrites the path
    lines of those sections and writes the result.

    Lines are modelled as [string] (sequences of bytes: the literals the
    script tests for are ASCII, so prefix tests and replacement agree on
    the UTF-8 encoding and on the code points).  A line as produced by
    [readlines] carries its own terminator; nothing below assumes where
    the newline sits, so every statement also covers the last line of a
    file that lacks one. *)

From Stdlib Require Import String Ascii DecimalString ZArith Arith Lia Bool List.
Import ListNotations.
Local Open Scope string_scope.
Local Open Scope list_scope.
Local Open Scope nat_scope.

(** String concatenation is written [^^]; [++] is kept for lists. *)
Infix "^^" := String.append (at level 60, right associativity).

(** ** Strings as Python uses them *)

Module PyStr.

(** [strip_prefix p s] is [Some r] exactly when [s = p ^^ r]. *)
Fixpoint strip_prefix (p s : string) : option string :=
  match p with
  | EmptyString => Some s
  | String c p' =>
      match s with
      | EmptyString => None
      | String d s' => if Ascii.eqb c d then strip_prefix p' s' else None
      end
  end.

(** [s.startswith(p)] *)
Definition startswith (s p : string) : bool :=
  match strip_prefix p s with
  | Some _ => true
  | None => false
  end.

(** [s.replace(old, new)] for a non-empty [old]: every occurrence of
    [old], found left to right without overlap, becomes [new].  [skip]
    counts the characters of a matched occurrence still to be passed. *)
Fixpoint replace_from (old new : string) (skip : nat) (s : string) : string :=
  match s with
  | EmptyString => EmptyString
  | String c s' =>
      match skip with
      | S k => replace_from old new k s'
      | O =>
          if startswith s old
          then new ^^ replace_from old new (String.length old - 1) s'
          else String c (replace_from old new 0 s')
      end
  end.

Definition replace (s old new : string) : string := replace_from old new 0 s.

Definition newline : ascii := "010"%char.

(** What a greedy group [.*] at the end of a pattern captures: the
    longest run of characters other than the newline. *)
Fixpoint dot_star (s : string) : string :=
  match s with
  | EmptyString => EmptyString
  | String c s' => if Ascii.eqb c newline then EmptyString else String c (dot_star s')
  end.

(** [str(n)] for a non-negative integer. *)
Definition str_of_nat (n : nat) : string := NilEmpty.string_of_uint (Nat.to_uint n).

End PyStr.

Import PyStr.

(** ** Outcomes of Python code *)

(** The exceptions the script can meet.  [SystemExit] is what
    [sys.exit] raises; it is not an [Exception], so [except Exception]
    lets it through. *)
Inductive exn : Type :=
| IndexError
| FileNotFoundError
| OtherError (msg : string)
| SystemExit (code : Z).

(** A computation returns, raises, or exhausts the iteration budget that
    bounds a [while] loop in this embedding. *)
Inductive result (A : Type) : Type :=
| Ok (a : A)
| Raise (e : exn)
| OutOfFuel.

Arguments Ok {A} a.
Arguments Raise {A} e.
Arguments OutOfFuel {A}.

Definition bind {A B : Type} (m : result A) (k : A -> result B) : result B :=
  match m with
  | Ok a => k a
  | Raise e => Raise e
  | OutOfFuel => OutOfFuel
  end.

Notation "x <- m ;; k" := (bind m (fun x => k))
  (at level 61, m at next level, right associativity).

(** ** The patch filter *)

Module Filter.

Definition nl : string := String newline EmptyString.

(** [line.startswith('diff --git')] *)
Definition is_diff_start (line : string) : bool := startswith line "diff --git".

(** *** The regular expression of [process_patch_file]

    After the literal [diff --git a/middleware/], group 1 is a greedy
    run of characters other than the newline, followed by the literal
    [ b/middleware/] and by group 2, again a greedy run.  [match_groups]
    is the backtracking search: group 1 first tries to take one more
    character, and falls back to ending where it stands. *)

Definition try_here (s : string) : option (string * string) :=
  match strip_prefix " b/middleware/" s with
  | Some r => Some (EmptyString, dot_star r)
  | None => None
  end.

Fixpoint match_groups (s : string) : option (string * string) :=
  match s with
  | EmptyString => try_here s
  | String c s' =>
      if Ascii.eqb c newline then try_here s
      else match match_groups s' with
           | Some (g1, g2) => Some (String c g1, g2)
           | None => try_here s
           end
  end.

(** [re.match] of that pattern against [line], anchored at the start of
    the line only: the two groups, or [None]. *)
Definition re_match_middleware (line : string) : option (string * string) :=
  match strip_prefix "diff --git a/middleware/" line with
  | Some r => match_groups r
  | None => None
  end.

(** *** [collect_diff_section]

    Indices are natural numbers: the script only ever passes indices
    from 0 on ([i] and [i + 1] of its scan).  Python's negative indices,
    which count from the end of the list, are outside this embedding. *)

Fixpoint collect_loop (fuel : nat) (lines : list string) (i : nat)
         (section_lines : list string) : result (list string) :=
  match fuel with
  | O => OutOfFuel
  | S fuel' =>
      if (i <? length lines)%nat then
        match nth_error lines i with
        | None => Raise IndexError
        | Some line =>
            if is_diff_start line then Ok section_lines
            else collect_loop fuel' lines (i + 1) (section_lines ++ [line])
        end
      else Ok section_lines
  end.

Definition collect_diff_section (lines : list string) (start_index : nat)
  : result (list string) :=
  match nth_error lines start_index with
  | None => Raise IndexError
  | Some line => collect_loop (S (length lines)) lines (start_index + 1) [line]
  end.

(** *** [skip_to_next_diff]: a [for] over [range(start_index, len(lines))],
    for a start index from 0 on *)

Fixpoint skip_over (lines : list string) (range : list nat) : result nat :=
  match range with
  | [] => Ok (length lines)
  | i :: range' =>
      match nth_error lines i with
      | None => Raise IndexError
      | Some line => if is_diff_start line then Ok i else skip_over lines range'
      end
  end.

Definition skip_to_next_diff (lines : list string) (start_index : nat) : result nat :=
  skip_over lines (seq start_index (length lines - start_index)).

(** *** [process_middleware_section] *)

(** One iteration of the [for] loop: the line appended for [line]. *)
Definition rewrite_line (path_a path_b line : string) : string :=
  if startswith line "diff --git" then
    "diff --git a/" ^^ path_a ^^ " b/" ^^ path_b ^^ nl
  else if startswith line "--- a/middleware/" then
    replace line "--- a/middleware/" "--- a/"
  else if startswith line "+++ b/middleware/" then
    replace line "+++ b/middleware/" "+++ b/"
  else line.

Definition process_middleware_section (section_lines : list string)
           (path_a path_b : string) : list string :=
  fold_left (fun processed_lines line =>
               processed_lines ++ [rewrite_line path_a path_b line])
            section_lines [].

(** *** The scan of [process_patch_file] *)

(** [for i, line in enumerate(lines)] up to the [break]. *)
Fixpoint find_start (lines : list string) (i : nat) : option nat :=
  match lines with
  | [] => None
  | line :: rest => if is_diff_start line then Some i else find_start rest (S i)
  end.

(** One iteration of the [while] loop, entered with [i < len(lines)]:
    the new index and the new [filtered_lines]. *)
Definition loop_body (lines : list string) (i : nat) (filtered_lines : list string)
  : result (nat * list string) :=
  match nth_error lines i with
  | None => Raise IndexError
  | Some line =>
      if is_diff_start line then
        match re_match_middleware line with
        | Some (group1, group2) =>
            section_lines <- collect_diff_section lines i ;;
            let processed_section :=
              process_middleware_section section_lines group1 group2 in
            Ok (i + length section_lines, filtered_lines ++ processed_section)
        | None =>
            i' <- skip_to_next_diff lines (i + 1) ;;
            Ok (i', filtered_lines)
        end
      else Ok (i + 1, filtered_lines)
  end.

Fixpoint while_loop (fuel : nat) (lines : list string) (i : nat)
         (filtered_lines : list string) : result (nat * list string) :=
  match fuel with
  | O => OutOfFuel
  | S fuel' =>
      if (i <? length lines)%nat then
        st <- loop_body lines i filtered_lines ;;
        while_loop fuel' lines (fst st) (snd st)
      else Ok (i, filtered_lines)
  end.

(** The lines handed to [writelines], for a document whose first
    diff-start line is at [start_index]. *)
Definition filter_from (lines : list string) (start_index : nat) : result (list string) :=
  st <- while_loop (S (length lines)) lines start_index [] ;;
  Ok (snd st).

(** The pure part of [process_patch_file]: nothing when no line starts
    with [diff --git], else the outcome of the scan. *)
Definition scan_patch (lines : list string) : option (result (list string)) :=
  match find_start lines 0 with
  | None => None
  | Some start_index => Some (filter_from lines start_index)
  end.

(** The number printed at the end. *)
Definition count_diff_lines (filtered_lines : list string) : nat :=
  length (filter is_diff_start filtered_lines).

End Filter.

Import Filter.

(** ** The script and its effects *)

Module Script.

(** What a run does to the outside, in order. *)
Inductive event : Type :=
| OpenRead (path : string)
| OpenWrite (path : string)
| Written (path : string) (content : list string)
| Print (msg : string).

(** The file system the run meets: what [open(path, 'r')] followed by
    [readlines] yields, and the exception, if any, that opening [path]
    for writing and [writelines] raise. *)
Record filesystem : Type := {
  read_lines : string -> list string + exn;
  write_error : string -> list string -> option exn
}.

(** A computation extends the trace of events and returns or raises. *)
Definition IO (A : Type) : Type := list event -> result A * list event.

Definition ret {A : Type} (a : A) : IO A := fun t => (Ok a, t).

Definition iobind {A B : Type} (m : IO A) (k : A -> IO B) : IO B :=
  fun t =>
    match m t with
    | (Ok a, t') => k a t'
    | (Raise e, t') => (Raise e, t')
    | (OutOfFuel, t') => (OutOfFuel, t')
    end.

Notation "x <~ m ;; k" := (iobind m (fun x => k))
  (at level 61, m at next level, right associativity).
Notation "m >> k" := (iobind m (fun _ => k))
  (at level 61, right associativity).

Definition lift {A : Type} (r : result A) : IO A := fun t => (r, t).

Definition print (msg : string) : IO unit := fun t => (Ok tt, t ++ [Print msg]).

Definition sys_exit (code : Z) : IO unit := lift (Raise (SystemExit code)).

(** [try: body except ...: handler], the handler choosing by exception. *)
Definition try_except {A : Type} (body : IO A) (handler : exn -> IO A) : IO A :=
  fun t =>
    match body t with
    | (Raise e, t') => handler e t'
    | other => other
    end.

(** [str(e)] *)
Definition str_of_exn (e : exn) : string :=
  match e with
  | IndexError => "list index out of range"
  | FileNotFoundError => "No such file or directory"
  | OtherError msg => msg
  | SystemExit _ => EmptyString
  end.

Section Run.

Variable fs : filesystem.

(** [with open(input_file, 'r', ...) as f: lines = f.readlines()] *)
Definition readlines (path : string) : IO (list string) :=
  fun t =>
    match read_lines fs path with
    | inl lines => (Ok lines, t ++ [OpenRead path])
    | inr e => (Raise e, t ++ [OpenRead path])
    end.

(** [with open(output_file, 'w', ...) as f: f.writelines(content)] *)
Definition writelines (path : string) (content : list string) : IO unit :=
  fun t =>
    match write_error fs path content with
    | Some e => (Raise e, t ++ [OpenWrite path])
    | None => (Ok tt, t ++ [OpenWrite path; Written path content])
    end.

Definition process_patch_file (input_file output_file : string) : IO unit :=
  lines <~ readlines input_file ;;
  match scan_patch lines with
  | None => print "No 'diff --git' found in the patch file"
  | Some scan =>
      filtered_lines <~ lift scan ;;
      writelines output_file filtered_lines >>
      print ("Filtered patch written to: " ^^ output_file) >>
      print ("Processed " ^^ str_of_nat (count_diff_lines filtered_lines)
             ^^ " middleware diff sections")
  end.

Definition usage_line : string :=
  "Usage: python filter_middleware_patch.py <input_patch_file> <output_patch_file>".

Definition example_line : string :=
  "Example: python filter_middleware_patch.py sync101225.patch middleware_only.patch".

(** [main], with [sys.argv] as [argv]. *)
Definition main (argv : list string) : IO unit :=
  if negb (length argv =? 3)%nat then
    print usage_line >> print example_line >> sys_exit 1
  else
    let input_file := nth 1 argv EmptyString in
    let output_file := nth 2 argv EmptyString in
    try_except (process_patch_file input_file output_file)
      (fun e =>
         match e with
         | FileNotFoundError =>
             print ("Error: Input file '" ^^ input_file ^^ "' not found") >>
             sys_exit 1
         | SystemExit code => lift (Raise (SystemExit code))
         | _ =>
             print ("Error processing patch file: " ^^ str_of_exn e) >>
             sys_exit 1
         end).

(** A run of the script from an empty trace. *)
Definition run (argv : list string) : result unit * list event := main argv [].

End Run.

(** The exit status of the process: 0 when [main] returns, the code of
    [sys.exit], 1 for an exception that escapes; nothing when the
    iteration budget ran out. *)
Definition exit_status (r : result unit) : option Z :=
  match r with
  | Ok _ => Some 0%Z
  | Raise (SystemExit code) => Some code
  | Raise _ => Some 1%Z
  | OutOfFuel => None
  end.

Definition wrote_file (t : list event) : bool :=
  existsb (fun ev => match ev with
                     | OpenWrite _ | Written _ _ => true
                     | _ => false
                     end) t.

Definition read_file (t : list event) : bool :=
  existsb (fun ev => match ev with OpenRead _ => true | _ => false end) t.


End Script.

Import Script.

(** A file system holding one readable file. *)
Definition one_file (name : string) (lines : list string) : filesystem :=
  {| read_lines := fun p => if String.eqb p name then inl lines else inr FileNotFoundError;
     write_error := fun _ _ => None |}.


(** ** The vocabulary of the specification *)

Module Spec.

Definition not_diff_start (line : string) : bool := negb (is_diff_start line).

(** The lines of [l] before its first diff-start line, and the rest. *)
Fixpoint body (l : list string) : list string :=
  match l with
  | [] => []
  | x :: l' => if is_diff_start x then [] else x :: body l'
  end.

Fixpoint after_body (l : list string) : list string :=
  match l with
  | [] => []
  | x :: l' => if is_diff_start x then l else after_body l'
  end.

(** The diff sections of a document: each diff-start line with the
    lines up to the next diff-start line or the end.  Lines before the
    first diff-start line (the preamble) belong to no section. *)
Fixpoint sections (l : list string) : list (list string) :=
  match l with
  | [] => []
  | x :: l' => if is_diff_start x then (x :: body l') :: sections l' else sections l'
  end.

(** [l] is empty or begins a section. *)
Definition at_boundary (l : list string) : Prop :=
  match l with
  | [] => True
  | x :: _ => is_diff_start x = true
  end.

Definition no_newline (s : string) : Prop := dot_star s = s.

(** [line] has the shape [diff --git a/<path_a> b/<path_b>], followed
    by nothing or by the line terminator. *)
Definition header_shape (line path_a path_b : string) : Prop :=
  exists tail,
    line = "diff --git a/" ^^ path_a ^^ " b/" ^^ path_b ^^ tail /\
    dot_star tail = EmptyString /\ no_newline path_a /\ no_newline path_b.

(** A diff-start marker of the format [diff --git a/<path> b/<path>]. *)
Definition is_marker (line : string) : Prop :=
  exists path_a path_b, header_shape line path_a path_b.

(** Both paths of the diff-start line begin with [middleware/]. *)
Definition eligible (line : string) : Prop :=
  exists rest_a rest_b,
    header_shape line ("middleware/" ^^ rest_a) ("middleware/" ^^ rest_b).

(** The section's diff-start line matched the pattern. *)
Definition eligible_section (sec : list string) : bool :=
  match sec with
  | d :: _ => match re_match_middleware d with Some _ => true | None => false end
  | [] => false
  end.

(** A line of a section that is neither rewritten marker. *)
Definition plain_line (line : string) : Prop :=
  startswith line "--- a/middleware/" = false /\
  startswith line "+++ b/middleware/" = false.

(** What a section adds to the output. *)
Definition contribution (sec : list string) : list string :=
  match sec with
  | d :: _ =>
      match re_match_middleware d with
      | Some (g1, g2) => process_middleware_section sec g1 g2
      | None => []
      end
  | [] => []
  end.

(** The output the specification describes: the contributions of the
    sections, in order. *)
Definition expected_output (lines : list string) : list string :=
  flat_map contribution (sections lines).

(** The lines written for a document, [[]] when nothing is written. *)
Definition output_lines (lines : list string) : list string :=
  match scan_patch lines with
  | Some (Ok out) => out
  | _ => []
  end.

(** The indices of the diff-start lines of a document. *)
Definition diff_start_indices (lines : list string) : list nat :=
  filter (fun j => match nth_error lines j with
                   | Some l => is_diff_start l
                   | None => false
                   end)
         (seq 0 (length lines)).

(** [isinstance(e, Exception)]: what [except Exception] catches. *)
Definition is_exception (e : exn) : bool :=
  match e with
  | SystemExit _ => false
  | _ => true
  end.

(** A file system whose failures are exceptions of the kind [open],
    [readlines] and [writelines] raise, never [SystemExit]. *)
Definition raises_exceptions_only (fs : filesystem) : Prop :=
  (forall path e, read_lines fs path = inr e -> is_exception e = true) /\
  (forall path content e, write_error fs path content = Some e -> is_exception e = true).

(** The events of a trace that touch a file. *)
Definition file_events (t : list event) : list event :=
  filter (fun ev => match ev with Print _ => false | _ => true end) t.

(** The message [main] prints for an exception caught around
    [process_patch_file]. *)
Definition error_message (input_file : string) (e : exn) : string :=
  match e with
  | FileNotFoundError => "Error: Input file '" ^^ input_file ^^ "' not found"
  | _ => "Error processing patch file: " ^^ str_of_exn e
  end.

(** How a run ends once an exception [e] has left [process_patch_file]
    with the trace at [t]: [SystemExit] passes, anything else is
    reported and turned into exit status 1. *)
Definition handled (input_file : string) (e : exn) (t : list event)
  : result unit * list event :=
  match e with
  | SystemExit code => (Raise (SystemExit code), t)
  | _ => (Raise (SystemExit 1), t ++ [Print (error_message input_file e)])
  end.

End Spec.

Import Spec.

(** ** Facts about the string operations *)

Lemma string_app_assoc (a b c : string) : (a ^^ b) ^^ c = a ^^ (b ^^ c).
Proof. induction a as [|x a IH]; simpl; [reflexivity | now rewrite IH]. Qed.

Lemma string_app_nil_r (a : string) : a ^^ "" = a.
Proof. induction a as [|x a IH]; simpl; [reflexivity | now rewrite IH]. Qed.

Lemma strip_prefix_Some (p s r : string) :
  strip_prefix p s = Some r <-> s = p ^^ r.
Proof.
  revert s; induction p as [|c p IH]; intros s; simpl.
  - split; [intros [= ->] | intros ->]; reflexivity.
  - destruct s as [|d s].
    + split; discriminate.
    + destruct (Ascii.eqb_spec c d) as [->|ne].
      * rewrite IH. split; [intros -> | intros [= ->]]; reflexivity.
      * split; [discriminate | intros [= e _]; congruence].
Qed.

Lemma strip_prefix_app (p r : string) : strip_prefix p (p ^^ r) = Some r.
Proof. now apply strip_prefix_Some. Qed.

Lemma startswith_true (s p : string) :
  startswith s p = true <-> exists r, s = p ^^ r.
Proof.
  unfold startswith. destruct (strip_prefix p s) as [r|] eqn:E.
  - apply strip_prefix_Some in E. split; eauto.
  - split; [discriminate | intros [r ->]]. now rewrite strip_prefix_app in E.
Qed.

Lemma startswith_app (p r : string) : startswith (p ^^ r) p = true.
Proof. apply startswith_true; eauto. Qed.

Lemma startswith_trans (s p q : string) :
  startswith s p = true -> startswith p q = true -> startswith s q = true.
Proof.
  rewrite !startswith_true. intros [r ->] [r' ->].
  exists (r' ^^ r). apply string_app_assoc.
Qed.


Lemma dot_star_split (s : string) :
  exists tail, s = dot_star s ^^ tail /\ dot_star tail = EmptyString.
Proof.
  induction s as [|c s [tail [E T]]]; simpl.
  - exists EmptyString. split; reflexivity.
  - destruct (Ascii.eqb c newline) eqn:N.
    + exists (String c s). simpl. rewrite N. split; reflexivity.
    + exists tail. simpl. split; [congruence | exact T].
Qed.

Lemma dot_star_idem (s : string) : dot_star (dot_star s) = dot_star s.
Proof.
  induction s as [|c s IH]; simpl; [reflexivity|].
  destruct (Ascii.eqb c newline) eqn:N; simpl; [reflexivity|].
  now rewrite N, IH.
Qed.

Lemma no_newline_cons (c : ascii) (s : string) :
  no_newline (String c s) <-> Ascii.eqb c newline = false /\ no_newline s.
Proof.
  unfold no_newline; simpl. destruct (Ascii.eqb c newline).
  - split; [discriminate | intros [? _]; discriminate].
  - split; [intros [= E]; auto | intros [_ E]; now rewrite E].
Qed.

Lemma no_newline_app (a b : string) :
  no_newline a -> no_newline b -> no_newline (a ^^ b).
Proof.
  induction a as [|c a IH]; simpl; intros Ha Hb; [exact Hb|].
  apply no_newline_cons in Ha as [N Ha]. apply no_newline_cons. auto.
Qed.

Lemma dot_star_app_tail (a tail : string) :
  no_newline a -> dot_star tail = EmptyString -> dot_star (a ^^ tail) = a.
Proof.
  induction a as [|c a IH]; simpl; intros Ha Ht; [exact Ht|].
  apply no_newline_cons in Ha as [N Ha]. now rewrite N, IH.
Qed.

(** *** The regular expression *)

Lemma try_here_Some (s g1 g2 : string) :
  try_here s = Some (g1, g2) ->
  g1 = EmptyString /\ exists r, s = " b/middleware/" ^^ r /\ g2 = dot_star r.
Proof.
  unfold try_here. destruct (strip_prefix " b/middleware/" s) as [r|] eqn:E; [|discriminate].
  intros [= <- <-]. apply strip_prefix_Some in E. eauto.
Qed.

Lemma try_here_app (r : string) :
  try_here (" b/middleware/" ^^ r) = Some (EmptyString, dot_star r).
Proof. unfold try_here. now rewrite strip_prefix_app. Qed.

(** What a successful match says about the text: it is group 1, the
    separator literal, group 2 and a tail that [.] cannot enter. *)
Lemma match_groups_sound (s g1 g2 : string) :
  match_groups s = Some (g1, g2) ->
  exists tail,
    s = g1 ^^ " b/middleware/" ^^ g2 ^^ tail /\
    dot_star tail = EmptyString /\ no_newline g1 /\ no_newline g2.
Proof.
  assert (here : forall s g1 g2, try_here s = Some (g1, g2) ->
            exists tail, s = g1 ^^ " b/middleware/" ^^ g2 ^^ tail /\
              dot_star tail = EmptyString /\ no_newline g1 /\ no_newline g2).
  { clear. intros s g1 g2 H. apply try_here_Some in H as [-> [r [-> ->]]].
    destruct (dot_star_split r) as [tail [E T]]. exists tail.
    repeat split; [| exact T | apply dot_star_idem].
    change (" b/middleware/" ^^ r = " b/middleware/" ^^ dot_star r ^^ tail).
    now rewrite <- E. }
  revert g1 g2. induction s as [|c s IH]; intros g1 g2; simpl.
  - apply here.
  - destruct (Ascii.eqb c newline) eqn:N; [apply here|].
    destruct (match_groups s) as [[h1 h2]|] eqn:M; [|apply here].
    intros [= <- <-]. destruct (IH _ _ eq_refl) as [tail [E [T [N1 N2]]]].
    exists tail. repeat split; auto.
    + exact (f_equal (String c) E).
    + apply no_newline_cons. auto.
Qed.

(** Any way of reading the text as a newline-free group 1 followed by
    the separator literal makes the match succeed. *)
Lemma match_groups_complete (g1 r : string) :
  no_newline g1 -> match_groups (g1 ^^ " b/middleware/" ^^ r) <> None.
Proof.
  assert (step : forall c s, Ascii.eqb c newline = false ->
            match_groups s <> None \/ try_here (String c s) <> None ->
            match_groups (String c s) <> None).
  { intros c s N H. cbn [match_groups]. rewrite N.
    destruct (match_groups s) as [[? ?]|]; [discriminate|].
    destruct H as [H|H]; [contradiction | exact H]. }
  induction g1 as [|c g1 IH]; intros Hn.
  - apply (step " "%char ("b/middleware/" ^^ r)); [reflexivity|].
    right. change (try_here (" b/middleware/" ^^ r) <> None).
    rewrite try_here_app. discriminate.
  - apply no_newline_cons in Hn as [N Hn].
    apply (step c (g1 ^^ " b/middleware/" ^^ r) N). left. exact (IH Hn).
Qed.

(** The match is greedy: no other reading has a longer group 1. *)
Lemma match_groups_greedy (s g1 g2 h1 r : string) :
  match_groups s = Some (g1, g2) ->
  s = h1 ^^ " b/middleware/" ^^ r -> no_newline h1 ->
  String.length h1 <= String.length g1.
Proof.
  revert g1 g2 h1. induction s as [|c s IH]; intros g1 g2 h1 M E Hn.
  - destruct h1; simpl in E; [discriminate | discriminate].
  - destruct h1 as [|d h1]; [simpl; lia|].
    simpl in E. injection E as <- E. apply no_newline_cons in Hn as [N Hn].
    simpl in M. rewrite N in M.
    destruct (match_groups s) as [[k1 k2]|] eqn:Ms.
    + injection M as <- <-. simpl. specialize (IH _ _ _ eq_refl E Hn). lia.
    + exfalso. subst s. now apply (match_groups_complete h1 r).
Qed.

Lemma re_match_middleware_sound (line g1 g2 : string) :
  re_match_middleware line = Some (g1, g2) ->
  header_shape line ("middleware/" ^^ g1) ("middleware/" ^^ g2).
Proof.
  unfold re_match_middleware.
  destruct (strip_prefix _ line) as [r|] eqn:P; [|discriminate].
  intros M. apply strip_prefix_Some in P.
  apply match_groups_sound in M as [tail [E [T [N1 N2]]]].
  exists tail. subst.
  split; [reflexivity|]. split; [exact T|].
  split; apply (no_newline_app "middleware/"); auto; reflexivity.
Qed.

Lemma re_match_middleware_complete (line : string) :
  eligible line -> re_match_middleware line <> None.
Proof.
  intros [a [b [tail [E [T [Na Nb]]]]]]. subst line.
  unfold re_match_middleware.
  change ("diff --git a/" ^^ ("middleware/" ^^ a) ^^ " b/" ^^ ("middleware/" ^^ b) ^^ tail)
    with ("diff --git a/middleware/" ^^ (a ^^ " b/middleware/" ^^ b ^^ tail)).
  rewrite strip_prefix_app. apply match_groups_complete.
  change (no_newline ("middleware/" ^^ a)) in Na. simpl in Na.
  repeat (apply no_newline_cons in Na as [_ Na]). exact Na.
Qed.

(** The pattern matches exactly the lines whose two paths both begin
    with [middleware/]. *)
Lemma re_match_middleware_eligible (line : string) :
  re_match_middleware line <> None <-> eligible line.
Proof.
  split.
  - destruct (re_match_middleware line) as [[g1 g2]|] eqn:M; [|congruence].
    intros _. exists g1, g2. now apply re_match_middleware_sound.
  - apply re_match_middleware_complete.
Qed.

Lemma re_match_is_diff_start (line g1 g2 : string) :
  re_match_middleware line = Some (g1, g2) -> is_diff_start line = true.
Proof.
  unfold re_match_middleware, is_diff_start.
  destruct (strip_prefix _ line) as [r|] eqn:P; [|discriminate].
  intros _. apply strip_prefix_Some in P. subst line.
  apply startswith_trans with (p := "diff --git a/middleware/").
  - apply startswith_app.
  - reflexivity.
Qed.
(** ** The embedding at work *)

Example re_match_plain :
  re_match_middleware ("diff --git a/middleware/x.c b/middleware/y.c" ^^ nl)
  = Some ("x.c", "y.c").
Proof. reflexivity. Qed.

Example re_match_greedy :
  re_match_middleware "diff --git a/middleware/x b/middleware/y b/middleware/z"
  = Some ("x b/middleware/y", "z").
Proof. reflexivity. Qed.

Example re_match_bare : re_match_middleware "diff --git a/middleware b/middleware" = None.
Proof. reflexivity. Qed.

Example replace_all :
  replace "--- a/middleware/x--- a/middleware/y" "--- a/middleware/" "--- a/"
  = "--- a/x--- a/y".
Proof. reflexivity. Qed.

Example scan_example :
  filter_from
    [ "diff --git a/foo.py b/foo.py" ^^ nl; "--- a/foo.py" ^^ nl; "+++ b/foo.py" ^^ nl;
      "diff --git a/middleware/handler.go b/middleware/handler.go" ^^ nl;
      "--- a/middleware/handler.go" ^^ nl; "+++ b/middleware/handler.go" ^^ nl;
      "@@ -1 +1 @@" ^^ nl ] 0
  = Ok [ "diff --git a/handler.go b/handler.go" ^^ nl; "--- a/handler.go" ^^ nl;
         "+++ b/handler.go" ^^ nl; "@@ -1 +1 @@" ^^ nl ].
Proof. reflexivity. Qed.

Example run_scenario :
  run (one_file "in.patch"
         [ "From 0123 Mon Sep 17" ^^ nl;
           "diff --git a/foo.py b/foo.py" ^^ nl; "--- a/foo.py" ^^ nl;
           "diff --git a/middleware/handler.go b/middleware/handler.go" ^^ nl;
           "--- a/middleware/handler.go" ^^ nl; "+++ b/middleware/handler.go" ^^ nl;
           "@@ -1 +1 @@" ^^ nl ])
      ["filter_middleware_patch.py"; "in.patch"; "out.patch"]
  = (Ok tt,
     [ OpenRead "in.patch"; OpenWrite "out.patch";
       Written "out.patch"
         [ "diff --git a/handler.go b/handler.go" ^^ nl; "--- a/handler.go" ^^ nl;
           "+++ b/handler.go" ^^ nl; "@@ -1 +1 @@" ^^ nl ];
       Print "Filtered patch written to: out.patch";
       Print "Processed 1 middleware diff sections" ]).
Proof. reflexivity. Qed.

Example run_missing_input :
  run (one_file "in.patch" []) ["prog"; "other.patch"; "out.patch"]
  = (Raise (SystemExit 1),
     [ OpenRead "other.patch"; Print "Error: Input file 'other.patch' not found" ]).
Proof. reflexivity. Qed.

(** ** Sections of a document *)

Lemma body_after_body (l : list string) : body l ++ after_body l = l.
Proof.
  induction l as [|x l IH]; simpl; [reflexivity|].
  destruct (is_diff_start x); simpl; [reflexivity | now rewrite IH].
Qed.

Lemma after_body_boundary (l : list string) : at_boundary (after_body l).
Proof.
  induction l as [|x l IH]; simpl; [exact I|].
  destruct (is_diff_start x) eqn:D; [exact D | exact IH].
Qed.

Lemma after_body_length (l : list string) : length (after_body l) <= length l.
Proof.
  induction l as [|x l IH]; simpl; [lia|].
  destruct (is_diff_start x); simpl; lia.
Qed.

Lemma body_not_diff_start (l : list string) :
  Forall (fun x => is_diff_start x = false) (body l).
Proof.
  induction l as [|x l IH]; simpl; [constructor|].
  destruct (is_diff_start x) eqn:D; constructor; assumption.
Qed.

Lemma body_app_boundary (l post : list string) :
  at_boundary post -> body (l ++ post) = body l.
Proof.
  intros B. induction l as [|x l IH]; simpl.
  - destruct post as [|d post]; simpl in *; [reflexivity | now rewrite B].
  - destruct (is_diff_start x); [reflexivity | now rewrite IH].
Qed.

Lemma body_plain (bd : list string) :
  Forall (fun x => is_diff_start x = false) bd -> body bd = bd.
Proof.
  induction 1 as [|x bd D _ IH]; simpl; [reflexivity|]. now rewrite D, IH.
Qed.

Lemma body_section (bd post : list string) :
  Forall (fun x => is_diff_start x = false) bd -> at_boundary post ->
  body (bd ++ post) = bd.
Proof. intros F B. rewrite body_app_boundary by exact B. now apply body_plain. Qed.

Lemma after_body_section (bd post : list string) :
  Forall (fun x => is_diff_start x = false) bd -> at_boundary post ->
  after_body (bd ++ post) = post.
Proof.
  intros F B. induction F as [|x bd D _ IH]; simpl.
  - destruct post as [|d post]; simpl in *; [reflexivity | now rewrite B].
  - now rewrite D.
Qed.

Lemma sections_skip_body (l : list string) : sections (after_body l) = sections l.
Proof.
  induction l as [|x l IH]; simpl; [reflexivity|].
  destruct (is_diff_start x) eqn:D; [simpl; now rewrite D | exact IH].
Qed.

Lemma sections_app (l post : list string) :
  at_boundary post -> sections (l ++ post) = sections l ++ sections post.
Proof.
  intros B. induction l as [|x l IH]; simpl; [reflexivity|].
  destruct (is_diff_start x); [|exact IH].
  now rewrite body_app_boundary, IH by exact B.
Qed.

Lemma sections_cons_section (d : string) (bd post : list string) :
  is_diff_start d = true ->
  Forall (fun x => is_diff_start x = false) bd -> at_boundary post ->
  sections (d :: bd ++ post) = (d :: bd) :: sections post.
Proof.
  intros D F B. simpl. rewrite D, body_section by assumption.
  now rewrite <- (sections_skip_body (bd ++ post)), after_body_section.
Qed.

(** The sections partition the document from its first diff-start line
    on: concatenated they give back exactly those lines. *)
Lemma sections_partition (l : list string) : concat (sections l) = after_body l.
Proof.
  induction l as [|x l IH]; simpl; [reflexivity|].
  destruct (is_diff_start x); [|exact IH].
  simpl. now rewrite IH, body_after_body.
Qed.

Lemma expected_output_app (l post : list string) :
  at_boundary post ->
  expected_output (l ++ post) = expected_output l ++ expected_output post.
Proof.
  intros B. unfold expected_output. now rewrite sections_app, flat_map_app.
Qed.

Lemma expected_output_section (d : string) (bd post : list string) :
  is_diff_start d = true ->
  Forall (fun x => is_diff_start x = false) bd -> at_boundary post ->
  expected_output (d :: bd ++ post) = contribution (d :: bd) ++ expected_output post.
Proof.
  intros D F B. unfold expected_output. now rewrite sections_cons_section.
Qed.

Lemma expected_output_skip_body (l : list string) :
  expected_output (after_body l) = expected_output l.
Proof. unfold expected_output. now rewrite sections_skip_body. Qed.

Lemma expected_output_cons (x : string) (l : list string) :
  expected_output (x :: l) =
  (if is_diff_start x then contribution (x :: body l) else []) ++ expected_output l.
Proof. unfold expected_output. simpl. now destruct (is_diff_start x). Qed.

(** ** The helper functions *)

Lemma nth_error_middle (pre : list string) (x : string) (suf : list string) :
  nth_error (pre ++ x :: suf) (length pre) = Some x.
Proof. rewrite nth_error_app2, Nat.sub_diag by lia. reflexivity. Qed.

Lemma snoc_app (pre : list string) (x : string) (suf : list string) :
  pre ++ x :: suf = (pre ++ [x]) ++ suf.
Proof. now rewrite <- app_assoc. Qed.

Lemma length_snoc (pre : list string) (x : string) : length (pre ++ [x]) = length pre + 1.
Proof. rewrite length_app. reflexivity. Qed.

Lemma process_middleware_section_map (sec : list string) (a b : string) :
  process_middleware_section sec a b = map (rewrite_line a b) sec.
Proof.
  unfold process_middleware_section.
  enough (G : forall acc,
             fold_left (fun p line => p ++ [rewrite_line a b line]) sec acc
             = acc ++ map (rewrite_line a b) sec) by apply (G []).
  induction sec as [|x sec IH]; intros acc; simpl.
  - now rewrite app_nil_r.
  - now rewrite IH, <- app_assoc.
Qed.

(** The inner [while] of [collect_diff_section], started inside the
    document, appends the lines up to the next diff-start line. *)
Lemma collect_loop_spec (suf pre acc : list string) (fuel : nat) :
  length suf < fuel ->
  collect_loop fuel (pre ++ suf) (length pre) acc = Ok (acc ++ body suf).
Proof.
  revert pre acc fuel. induction suf as [|x suf IH]; intros pre acc fuel Hf;
    (destruct fuel as [|fuel]; [simpl in Hf; lia|]); cbn [collect_loop].
  - rewrite app_nil_r, Nat.ltb_irrefl. simpl. now rewrite app_nil_r.
  - replace (length pre <? length (pre ++ x :: suf)) with true
      by (symmetry; apply Nat.ltb_lt; rewrite length_app; simpl; lia).
    rewrite nth_error_middle. simpl body.
    destruct (is_diff_start x).
    + now rewrite app_nil_r.
    + rewrite snoc_app, <- (length_snoc pre x).
      rewrite IH by (simpl in Hf; lia). now rewrite <- app_assoc.
Qed.

Lemma collect_diff_section_spec (pre : list string) (x : string) (suf : list string) :
  collect_diff_section (pre ++ x :: suf) (length pre) = Ok (x :: body suf).
Proof.
  unfold collect_diff_section. rewrite nth_error_middle.
  rewrite <- (length_snoc pre x), snoc_app.
  rewrite collect_loop_spec; [reflexivity|].
  rewrite length_app. simpl. lia.
Qed.

Lemma skip_over_spec (suf pre : list string) :
  skip_over (pre ++ suf) (seq (length pre) (length suf))
  = Ok (length pre + length (body suf)).
Proof.
  revert pre. induction suf as [|x suf IH]; intros pre; simpl.
  - rewrite app_nil_r. f_equal. lia.
  - rewrite nth_error_middle. destruct (is_diff_start x).
    + simpl. f_equal. lia.
    + rewrite snoc_app. replace (S (length pre)) with (length (pre ++ [x]))
        by (rewrite length_snoc; lia).
      rewrite IH, length_snoc. simpl. f_equal. lia.
Qed.

Lemma skip_to_next_diff_spec (pre suf : list string) :
  skip_to_next_diff (pre ++ suf) (length pre) = Ok (length pre + length (body suf)).
Proof.
  unfold skip_to_next_diff.
  replace (length (pre ++ suf) - length pre) with (length suf)
    by (rewrite length_app; lia).
  apply skip_over_spec.
Qed.

(** ** The scan *)

(** One iteration at a line [x] that sits after [pre]. *)
Lemma loop_body_spec (pre : list string) (x : string) (suf acc : list string) :
  loop_body (pre ++ x :: suf) (length pre) acc =
  if is_diff_start x then
    match re_match_middleware x with
    | Some (g1, g2) =>
        Ok (length pre + length (x :: body suf),
            acc ++ process_middleware_section (x :: body suf) g1 g2)
    | None => Ok (length (pre ++ [x]) + length (body suf), acc)
    end
  else Ok (length pre + 1, acc).
Proof.
  unfold loop_body. rewrite nth_error_middle.
  destruct (is_diff_start x); [|reflexivity].
  destruct (re_match_middleware x) as [[g1 g2]|].
  - now rewrite collect_diff_section_spec.
  - rewrite <- (length_snoc pre x), snoc_app. now rewrite skip_to_next_diff_spec.
Qed.

Lemma length_section_prefix (pre : list string) (x : string) (suf : list string) :
  length (pre ++ x :: body suf) = length pre + length (x :: body suf).
Proof. now rewrite length_app. Qed.

Lemma split_at_section (pre : list string) (x : string) (suf : list string) :
  pre ++ x :: suf = (pre ++ x :: body suf) ++ after_body suf.
Proof. now rewrite <- app_assoc, <- app_comm_cons, body_after_body. Qed.

(** The [while] loop, started at the end of [pre] with enough budget for
    the rest of the document, stops at the end of the document having
    appended what the sections of the rest contribute. *)
Lemma while_loop_spec (n : nat) :
  forall (suf pre acc : list string) (fuel : nat),
    length suf <= n -> length suf < fuel ->
    while_loop fuel (pre ++ suf) (length pre) acc
    = Ok (length (pre ++ suf), acc ++ expected_output suf).
Proof.
  induction n as [|n IH]; intros suf pre acc fuel Hn Hf;
    (destruct fuel as [|fuel]; [lia|]); cbn [while_loop].
  - destruct suf; [|simpl in Hn; lia].
    rewrite !app_nil_r, Nat.ltb_irrefl. reflexivity.
  - destruct suf as [|x suf].
    { rewrite !app_nil_r, Nat.ltb_irrefl. reflexivity. }
    replace (length pre <? length (pre ++ x :: suf)) with true
      by (symmetry; apply Nat.ltb_lt; rewrite length_app; simpl; lia).
    simpl in Hn, Hf.
    rewrite loop_body_spec, expected_output_cons.
    destruct (is_diff_start x) eqn:D.
    + pose proof (after_body_length suf) as La.
      destruct (re_match_middleware x) as [[g1 g2]|] eqn:M; cbn [bind fst snd].
      * rewrite <- length_section_prefix, split_at_section.
        rewrite IH by lia.
        rewrite expected_output_skip_body. unfold contribution. rewrite M.
        now rewrite (app_assoc acc).
      * replace (length (pre ++ [x]) + length (body suf))
          with (length (pre ++ x :: body suf))
          by (rewrite !length_app; simpl; lia).
        rewrite split_at_section, IH by lia.
        rewrite expected_output_skip_body. unfold contribution. now rewrite M.
    + cbn [bind fst snd]. rewrite <- (length_snoc pre x), snoc_app.
      now rewrite IH by lia.
Qed.

Lemma find_start_spec (l : list string) (k : nat) :
  find_start l k =
  match after_body l with
  | [] => None
  | _ :: _ => Some (k + length (body l))
  end.
Proof.
  revert k. induction l as [|x l IH]; intros k; simpl; [reflexivity|].
  destruct (is_diff_start x).
  - simpl. f_equal. lia.
  - rewrite IH. destruct (after_body l); [reflexivity|]. simpl. f_equal. lia.
Qed.

Lemma find_start_None (l : list string) :
  find_start l 0 = None <-> Forall (fun x => is_diff_start x = false) l.
Proof.
  rewrite find_start_spec. split.
  - intros H. rewrite <- (body_after_body l).
    destruct (after_body l); [|discriminate].
    rewrite app_nil_r. apply body_not_diff_start.
  - intros F. pose proof (after_body_section l [] F I) as E.
    rewrite app_nil_r in E. now rewrite E.
Qed.

Lemma filter_from_spec (pre suf : list string) :
  filter_from (pre ++ suf) (length pre) = Ok (expected_output suf).
Proof.
  unfold filter_from.
  rewrite while_loop_spec with (n := length suf); [reflexivity | lia |].
  rewrite length_app. lia.
Qed.

(** The scan always completes, and what it accumulates is what the
    sections of the document contribute. *)
Lemma scan_patch_spec (lines : list string) :
  scan_patch lines =
  match find_start lines 0 with
  | None => None
  | Some _ => Some (Ok (expected_output lines))
  end.
Proof.
  unfold scan_patch. rewrite find_start_spec.
  destruct (after_body lines) as [|d rest] eqn:A; [reflexivity|].
  pose proof (filter_from_spec (body lines) (after_body lines)) as H.
  rewrite body_after_body, expected_output_skip_body in H.
  simpl. now rewrite H.
Qed.

Lemma expected_output_no_diff (l : list string) :
  Forall (fun x => is_diff_start x = false) l -> expected_output l = [].
Proof.
  intros F. rewrite <- expected_output_skip_body.
  pose proof (after_body_section l [] F I) as E. rewrite app_nil_r in E.
  now rewrite E.
Qed.

Lemma output_lines_spec (lines : list string) :
  output_lines lines = expected_output lines.
Proof.
  unfold output_lines. rewrite scan_patch_spec.
  destruct (find_start lines 0) eqn:F; [reflexivity|].
  symmetry. apply expected_output_no_diff. now apply find_start_None.
Qed.

(** ** The section segmenter *)

Lemma firstn_body (l : list string) : firstn (length (body l)) l = body l.
Proof.
  induction l as [|x l IH]; simpl; [reflexivity|].
  destruct (is_diff_start x); simpl; [reflexivity | now rewrite IH].
Qed.

Lemma skipn_body (l : list string) : skipn (length (body l)) l = after_body l.
Proof.
  induction l as [|x l IH]; simpl; [reflexivity|].
  destruct (is_diff_start x); simpl; [reflexivity | exact IH].
Qed.

Lemma body_length (l : list string) : length (body l) <= length l.
Proof. rewrite <- (body_after_body l) at 2. rewrite length_app. lia. Qed.

Lemma nth_error_in_body (l : list string) (k : nat) (x : string) :
  k < length (body l) -> nth_error l k = Some x -> is_diff_start x = false.
Proof.
  intros Hk Hx. rewrite <- (body_after_body l), nth_error_app1 in Hx by exact Hk.
  apply nth_error_In in Hx.
  exact (proj1 (Forall_forall _ _) (body_not_diff_start l) x Hx).
Qed.

Lemma nth_error_after_body (l : list string) (x : string) :
  nth_error l (length (body l)) = Some x -> is_diff_start x = true.
Proof.
  intros Hx. rewrite <- (body_after_body l) in Hx at 1.
  rewrite nth_error_app2, Nat.sub_diag in Hx by lia.
  pose proof (after_body_boundary l) as B.
  destruct (after_body l); simpl in *; [discriminate | congruence].
Qed.

(** Collecting at every diff-start index yields the sections, one by one. *)
Lemma collect_at_diff_starts (suf pre : list string) :
  Forall2 (fun j sec => collect_diff_section (pre ++ suf) j = Ok sec)
          (filter (fun j => match nth_error (pre ++ suf) j with
                            | Some l => is_diff_start l
                            | None => false
                            end)
                  (seq (length pre) (length suf)))
          (sections suf).
Proof.
  revert pre. induction suf as [|x suf IH]; intros pre; simpl; [constructor|].
  rewrite nth_error_middle.
  specialize (IH (pre ++ [x])). rewrite <- snoc_app, length_snoc in IH.
  replace (length pre + 1) with (S (length pre)) in IH by lia.
  destruct (is_diff_start x); [|exact IH].
  constructor; [apply collect_diff_section_spec | exact IH].
Qed.

(** C6.  Called at a diff-start line, [collect_diff_section] returns the
    contiguous run of lines from that index up to, and excluding, the
    next diff-start line or the end of the document: the lines after the
    first one are no diff-start lines, and the line that follows the run,
    if there is one, is a diff-start line and is not taken.  The sections
    collected at the diff-start indices, concatenated in order, are
    exactly the document from its first diff-start line on: no gap and
    no overlap. *)
Theorem collect_diff_section_maximal_run
        (lines : list string) (i : nat) (line : string) :
  nth_error lines i = Some line ->
  is_diff_start line = true ->
  (exists n,
      collect_diff_section lines i = Ok (firstn (S n) (skipn i lines)) /\
      i + S n <= length lines /\
      (forall k l, i < k < i + S n ->
                   nth_error lines k = Some l -> is_diff_start l = false) /\
      (forall l, nth_error lines (i + S n) = Some l -> is_diff_start l = true)) /\
  (exists s secs,
      find_start lines 0 = Some s /\
      Forall2 (fun j sec => collect_diff_section lines j = Ok sec)
              (diff_start_indices lines) secs /\
      concat secs = skipn s lines).
Proof.
  intros Hi D. split.
  - destruct (nth_error_split lines i Hi) as [pre [suf [-> <-]]].
    exists (length (body suf)).
    rewrite collect_diff_section_spec.
    replace (skipn (length pre) (pre ++ line :: suf)) with (line :: suf)
      by (rewrite skipn_app, skipn_all, Nat.sub_diag; reflexivity).
    cbn [firstn]. rewrite firstn_body.
    pose proof (body_length suf) as Lb.
    split; [reflexivity|]. split; [rewrite length_app; simpl; lia|]. split.
    + intros k l Hk Hl.
      rewrite nth_error_app2 in Hl by lia.
      destruct (k - length pre) as [|m] eqn:Em; [lia|]. simpl in Hl.
      apply (nth_error_in_body suf m); [lia | exact Hl].
    + intros l Hl. rewrite nth_error_app2 in Hl by lia.
      replace (length pre + S (length (body suf)) - length pre)
        with (S (length (body suf))) in Hl by lia.
      simpl in Hl. now apply nth_error_after_body in Hl.
  - exists (length (body lines)), (sections lines).
    split; [|split].
    + rewrite find_start_spec. destruct (after_body lines) eqn:A; [|reflexivity].
      exfalso.
      assert (F : Forall (fun x => is_diff_start x = false) lines).
      { rewrite <- (body_after_body lines), A, app_nil_r. apply body_not_diff_start. }
      apply nth_error_In in Hi.
      rewrite (proj1 (Forall_forall _ _) F line Hi) in D. discriminate.
    + exact (collect_at_diff_starts lines []).
    + now rewrite sections_partition, skipn_body.
Qed.

Lemma collect_diff_section_maximal_run_witness :
  let lines := [ "diff --git a/middleware/x b/middleware/x" ^^ nl; "@@ -1 +1 @@" ^^ nl;
                 "diff --git a/y b/y" ^^ nl; "+z" ^^ nl ] in
  nth_error lines 0 = Some ("diff --git a/middleware/x b/middleware/x" ^^ nl) /\
  collect_diff_section lines 0
  = Ok [ "diff --git a/middleware/x b/middleware/x" ^^ nl; "@@ -1 +1 @@" ^^ nl ] /\
  exists s secs,
    find_start lines 0 = Some s /\
    Forall2 (fun j sec => collect_diff_section lines j = Ok sec)
            (diff_start_indices lines) secs /\
    concat secs = skipn s lines.
Proof.
  intros lines. split; [reflexivity|]. split; [reflexivity|].
  exact (proj2 (collect_diff_section_maximal_run lines 0 _ eq_refl eq_refl)).
Defined.

(** ** Termination of the scan *)

(** C10.  An iteration of the [while] loop entered with [i] inside the
    document returns, and leaves the index strictly larger and not past
    the end: a line that is no diff-start line moves it by one, a
    diff-start line that does not match moves it to the index
    [skip_to_next_diff] finds after it, and a matching one moves it by
    the length of the collected section, which is at least one.  Hence
    the loop, given a budget larger than the number of lines left, stops
    with the index at the end of the document. *)
Theorem scan_terminates (lines : list string) (i : nat) (filtered_lines : list string) :
  i < length lines ->
  (exists i' filtered_lines' line,
      loop_body lines i filtered_lines = Ok (i', filtered_lines') /\
      i < i' <= length lines /\
      nth_error lines i = Some line /\
      ((is_diff_start line = false /\ i' = i + 1) \/
       (is_diff_start line = true /\ re_match_middleware line = None /\
        skip_to_next_diff lines (i + 1) = Ok i') \/
       (exists section_lines,
           is_diff_start line = true /\ re_match_middleware line <> None /\
           collect_diff_section lines i = Ok section_lines /\
           1 <= length section_lines /\ i' = i + length section_lines))) /\
  (forall fuel, length lines - i < fuel ->
                exists out, while_loop fuel lines i filtered_lines = Ok (length lines, out)).
Proof.
  intros Hi.
  destruct (nth_error lines i) as [line|] eqn:Hl;
    [|apply nth_error_None in Hl; lia].
  destruct (nth_error_split lines i Hl) as [pre [suf [-> <-]]].
  pose proof (body_length suf) as Lb.
  assert (Ll : length (pre ++ line :: suf) = length pre + S (length suf))
    by (rewrite length_app; reflexivity).
  split.
  - rewrite loop_body_spec.
    destruct (is_diff_start line) eqn:D.
    + destruct (re_match_middleware line) as [[g1 g2]|] eqn:M.
      * exists (length pre + length (line :: body suf)),
               (filtered_lines ++ process_middleware_section (line :: body suf) g1 g2),
               line.
        split; [reflexivity|]. split; [simpl; lia|].
        split; [reflexivity|]. right; right.
        exists (line :: body suf). rewrite collect_diff_section_spec.
        split; [exact D|]. split; [rewrite M; discriminate|].
        split; [reflexivity|]. split; [simpl; lia | reflexivity].
      * exists (length (pre ++ [line]) + length (body suf)), filtered_lines, line.
        split; [reflexivity|]. rewrite length_snoc.
        split; [lia|]. split; [reflexivity|]. right; left.
        rewrite <- (length_snoc pre line), snoc_app, skip_to_next_diff_spec.
        split; [exact D|]. split; [exact M | reflexivity].
    + exists (length pre + 1), filtered_lines, line.
      split; [reflexivity|]. split; [lia|].
      split; [reflexivity|]. left. split; [exact D | reflexivity].
  - intros fuel Hf. eexists.
    apply while_loop_spec with (n := length (line :: suf)); [lia|].
    simpl. lia.
Qed.

Lemma scan_terminates_witness :
  let lines := [ "diff --git a/x b/x" ^^ nl; "+a" ^^ nl;
                 "diff --git a/middleware/y b/middleware/y" ^^ nl; "+b" ^^ nl ] in
  0 < length lines /\
  exists out, while_loop 5 lines 0 [] = Ok (length lines, out).
Proof.
  intros lines. split; [simpl; lia|].
  refine (proj2 (scan_terminates lines 0 [] _) 5 _); simpl; lia.
Defined.

(** ** What the sections contribute *)

Lemma find_start_has_diff (pre : list string) (d : string) (rest : list string) :
  is_diff_start d = true -> find_start (pre ++ d :: rest) 0 <> None.
Proof.
  intros D N. apply find_start_None in N.
  apply Forall_app in N as [_ N]. inversion N; congruence.
Qed.

Lemma scan_patch_has_diff (pre : list string) (d : string) (rest : list string) :
  is_diff_start d = true ->
  scan_patch (pre ++ d :: rest) = Some (Ok (output_lines (pre ++ d :: rest))).
Proof.
  intros D. rewrite output_lines_spec, scan_patch_spec.
  pose proof (find_start_has_diff pre d rest D).
  destruct (find_start _ 0); [reflexivity | contradiction].
Qed.

Lemma output_lines_app (l post : list string) :
  at_boundary post -> output_lines (l ++ post) = output_lines l ++ output_lines post.
Proof. intros B. rewrite !output_lines_spec. now apply expected_output_app. Qed.

Lemma output_lines_section (pre : list string) (d : string) (bd post : list string) :
  is_diff_start d = true ->
  Forall (fun x => is_diff_start x = false) bd -> at_boundary post ->
  output_lines (pre ++ d :: bd ++ post)
  = output_lines pre ++ contribution (d :: bd) ++ output_lines post.
Proof.
  intros D F B. rewrite output_lines_app by exact D.
  rewrite (output_lines_spec (d :: bd ++ post)), expected_output_section by assumption.
  now rewrite <- output_lines_spec.
Qed.

Lemma not_eligible_no_match (d : string) : ~ eligible d -> re_match_middleware d = None.
Proof.
  intros N. destruct (re_match_middleware d) eqn:M; [|reflexivity].
  exfalso. apply N, re_match_middleware_eligible. congruence.
Qed.

(** Where the pattern does not match.  A section whose diff-start line
    cannot be read with both paths under [middleware/] (a line that
    starts with [diff --git] and is not even of the header shape
    included) leaves no trace in the output: the iteration that meets it
    keeps the accumulated lines as they are and moves to the line after
    the section; the output is that of the document with the section
    deleted, namely the output for what precedes it followed by the
    output for what follows it.  The scan returns normally, and a
    matching section that follows is written: its rewritten diff-start
    line, then its other lines, each passed through [rewrite_line]. *)
Theorem non_middleware_section_absent
        (pre : list string) (d : string) (bd post : list string) :
  is_diff_start d = true ->
  ~ eligible d ->
  Forall (fun x => is_diff_start x = false) bd ->
  at_boundary post ->
  (forall acc, loop_body (pre ++ d :: bd ++ post) (length pre) acc
               = Ok (length (pre ++ d :: bd), acc)) /\
  scan_patch (pre ++ d :: bd ++ post)
  = Some (Ok (output_lines (pre ++ d :: bd ++ post))) /\
  output_lines (pre ++ d :: bd ++ post) = output_lines (pre ++ post) /\
  output_lines (pre ++ d :: bd ++ post) = output_lines pre ++ output_lines post /\
  (forall d2 bd2 post2 g1 g2,
      post = d2 :: bd2 ++ post2 ->
      re_match_middleware d2 = Some (g1, g2) ->
      Forall (fun x => is_diff_start x = false) bd2 ->
      at_boundary post2 ->
      output_lines (pre ++ d :: bd ++ post)
      = output_lines pre
        ++ ("diff --git a/" ^^ g1 ^^ " b/" ^^ g2 ^^ nl) :: map (rewrite_line g1 g2) bd2
        ++ output_lines post2 /\
      In ("diff --git a/" ^^ g1 ^^ " b/" ^^ g2 ^^ nl)
         (output_lines (pre ++ d :: bd ++ post))).
Proof.
  intros D N F B. apply not_eligible_no_match in N.
  assert (E : output_lines (pre ++ d :: bd ++ post)
              = output_lines pre ++ output_lines post).
  { rewrite output_lines_section by assumption. simpl. now rewrite N. }
  split; [|split; [|split; [|split]]].
  - intros acc. rewrite loop_body_spec, D, N, body_section by assumption.
    f_equal. f_equal. rewrite !length_app. simpl. lia.
  - now apply scan_patch_has_diff.
  - rewrite E. symmetry. now apply output_lines_app.
  - exact E.
  - intros d2 bd2 post2 g1 g2 -> M F2 B2.
    pose proof (re_match_is_diff_start _ _ _ M) as D2.
    pose proof (output_lines_section [] d2 bd2 post2 D2 F2 B2) as S.
    unfold contribution in S.
    rewrite M, process_middleware_section_map in S. cbn [map] in S.
    assert (H : rewrite_line g1 g2 d2 = "diff --git a/" ^^ g1 ^^ " b/" ^^ g2 ^^ nl).
    { unfold rewrite_line. unfold is_diff_start in D2. now rewrite D2. }
    rewrite H in S.
    assert (O : output_lines (pre ++ d :: bd ++ d2 :: bd2 ++ post2)
                = output_lines pre
                  ++ ("diff --git a/" ^^ g1 ^^ " b/" ^^ g2 ^^ nl)
                     :: map (rewrite_line g1 g2) bd2
                  ++ output_lines post2).
    { rewrite E. f_equal. exact S. }
    split; [exact O|]. rewrite O. apply in_or_app. right. now left.
Qed.

Lemma not_eligible_foo : ~ eligible ("diff --git a/foo.py b/foo.py" ^^ nl).
Proof.
  intros E. apply re_match_middleware_eligible in E. now apply E.
Qed.

Lemma non_middleware_section_absent_witness :
  output_lines
    ([ "From 0123" ^^ nl ] ++
     ("diff --git a/foo.py b/foo.py" ^^ nl) :: [ "--- a/foo.py" ^^ nl; "+x" ^^ nl ] ++
     [ "diff --git a/middleware/h.go b/middleware/h.go" ^^ nl; "+y" ^^ nl ])
  = [ "diff --git a/h.go b/h.go" ^^ nl; "+y" ^^ nl ].
Proof.
  refine (proj1 (proj2 (proj2 (proj2 (proj2
    (non_middleware_section_absent
       [ "From 0123" ^^ nl ] ("diff --git a/foo.py b/foo.py" ^^ nl)
       [ "--- a/foo.py" ^^ nl; "+x" ^^ nl ]
       [ "diff --git a/middleware/h.go b/middleware/h.go" ^^ nl; "+y" ^^ nl ]
       eq_refl not_eligible_foo _ eq_refl))))
    ("diff --git a/middleware/h.go b/middleware/h.go" ^^ nl) [ "+y" ^^ nl ] []
    "h.go" "h.go" eq_refl eq_refl _ I)).
  - repeat constructor.
  - repeat constructor.
Defined.

(** ** The section rewriter *)

Lemma rewrite_line_plain (a b line : string) :
  is_diff_start line = false -> plain_line line -> rewrite_line a b line = line.
Proof.
  unfold rewrite_line, is_diff_start. intros D [M P]. now rewrite D, M, P.
Qed.

Lemma rewrite_line_header (a b line : string) :
  is_diff_start line = true ->
  rewrite_line a b line = "diff --git a/" ^^ a ^^ " b/" ^^ b ^^ nl.
Proof. unfold rewrite_line, is_diff_start. now intros ->. Qed.

Lemma contribution_eligible (d : string) (bd : list string) (g1 g2 : string) :
  re_match_middleware d = Some (g1, g2) ->
  contribution (d :: bd)
  = ("diff --git a/" ^^ g1 ^^ " b/" ^^ g2 ^^ nl) :: map (rewrite_line g1 g2) bd.
Proof.
  intros M. unfold contribution. rewrite M, process_middleware_section_map.
  simpl. now rewrite (rewrite_line_header g1 g2 d (re_match_is_diff_start _ _ _ M)).
Qed.

(** What the pattern's groups give.  For a section whose diff-start
    line the pattern matches, the groups [g1], [g2] split that line as
    [diff --git a/middleware/<g1> b/middleware/<g2>], and the line
    written in its place is [diff --git a/<g1> b/<g2>] with a newline;
    that line opens the section's part of the output.  Where the
    literal [ b/middleware/] occurs once in the line the groups are the
    two paths without their leading [middleware/]. *)
Theorem eligible_header_rewritten
        (pre : list string) (d : string) (bd post : list string) :
  eligible d ->
  Forall (fun x => is_diff_start x = false) bd ->
  at_boundary post ->
  exists g1 g2 out_body,
    re_match_middleware d = Some (g1, g2) /\
    header_shape d ("middleware/" ^^ g1) ("middleware/" ^^ g2) /\
    header_shape ("diff --git a/" ^^ g1 ^^ " b/" ^^ g2 ^^ nl) g1 g2 /\
    process_middleware_section (d :: bd) g1 g2
    = ("diff --git a/" ^^ g1 ^^ " b/" ^^ g2 ^^ nl) :: out_body /\
    length out_body = length bd /\
    output_lines (pre ++ d :: bd ++ post)
    = output_lines pre
      ++ ("diff --git a/" ^^ g1 ^^ " b/" ^^ g2 ^^ nl) :: out_body
      ++ output_lines post.
Proof.
  intros E F B. apply re_match_middleware_eligible in E.
  destruct (re_match_middleware d) as [[g1 g2]|] eqn:M; [|congruence].
  pose proof (re_match_middleware_sound _ _ _ M) as Sh.
  pose proof (re_match_is_diff_start _ _ _ M) as D.
  exists g1, g2, (map (rewrite_line g1 g2) bd).
  split; [reflexivity|]. split; [exact Sh|]. split; [|split; [|split]].
  - destruct Sh as [tail [_ [_ [N1 N2]]]].
    assert (P1 : no_newline g1)
      by (simpl in N1; repeat (apply no_newline_cons in N1 as [_ N1]); exact N1).
    assert (P2 : no_newline g2)
      by (simpl in N2; repeat (apply no_newline_cons in N2 as [_ N2]); exact N2).
    exists nl. repeat split; assumption.
  - rewrite process_middleware_section_map. simpl.
    now rewrite (rewrite_line_header g1 g2 d D).
  - apply length_map.
  - rewrite output_lines_section by assumption.
    now rewrite (contribution_eligible d bd g1 g2 M).
Qed.

Lemma eligible_handler :
  eligible ("diff --git a/middleware/handler.go b/middleware/handler.go" ^^ nl).
Proof. apply re_match_middleware_eligible. discriminate. Qed.

Lemma eligible_header_rewritten_witness :
  exists g1 g2 out_body,
    re_match_middleware ("diff --git a/middleware/handler.go b/middleware/handler.go" ^^ nl)
    = Some (g1, g2) /\
    output_lines
      ([ "diff --git a/foo.py b/foo.py" ^^ nl ] ++
       ("diff --git a/middleware/handler.go b/middleware/handler.go" ^^ nl)
       :: [ "@@ -1 +1 @@" ^^ nl ] ++ [])
    = output_lines [ "diff --git a/foo.py b/foo.py" ^^ nl ]
      ++ ("diff --git a/" ^^ g1 ^^ " b/" ^^ g2 ^^ nl) :: out_body ++ output_lines [].
Proof.
  destruct (eligible_header_rewritten
              [ "diff --git a/foo.py b/foo.py" ^^ nl ]
              ("diff --git a/middleware/handler.go b/middleware/handler.go" ^^ nl)
              [ "@@ -1 +1 @@" ^^ nl ] [] eligible_handler
              ltac:(repeat constructor) I)
    as [g1 [g2 [out_body [M [_ [_ [_ [_ O]]]]]]]].
  exists g1, g2, out_body. split; [exact M | exact O].
Defined.

(** C4.  In a section whose diff-start line matches, the lines after the
    diff-start line are written one for one and in place: the section's
    part of the output is a first line followed by as many lines as the
    section has after its diff-start line, and at every position that
    holds a line beginning with neither [--- a/middleware/] nor
    [+++ b/middleware/] the output holds that very line, terminator
    included. *)
Theorem plain_lines_copied
        (pre : list string) (d : string) (bd post : list string) :
  eligible d ->
  Forall (fun x => is_diff_start x = false) bd ->
  at_boundary post ->
  exists header out_body,
    output_lines (pre ++ d :: bd ++ post)
    = output_lines pre ++ header :: out_body ++ output_lines post /\
    length out_body = length bd /\
    forall k line,
      nth_error bd k = Some line -> plain_line line ->
      nth_error out_body k = Some line.
Proof.
  intros E F B. apply re_match_middleware_eligible in E.
  destruct (re_match_middleware d) as [[g1 g2]|] eqn:M; [|congruence].
  exists ("diff --git a/" ^^ g1 ^^ " b/" ^^ g2 ^^ nl), (map (rewrite_line g1 g2) bd).
  split; [|split].
  - rewrite output_lines_section
      by (try assumption; exact (re_match_is_diff_start _ _ _ M)).
    now rewrite (contribution_eligible d bd g1 g2 M).
  - apply length_map.
  - intros k line Hk P. rewrite nth_error_map, Hk. simpl. f_equal.
    apply rewrite_line_plain; [|exact P].
    apply nth_error_In in Hk.
    exact (proj1 (Forall_forall _ _) F line Hk).
Qed.

Lemma plain_lines_copied_witness :
  exists header out_body,
    output_lines
      ([] ++ ("diff --git a/middleware/handler.go b/middleware/handler.go" ^^ nl)
          :: [ "new file mode 100644" ^^ nl; "--- a/middleware/handler.go" ^^ nl;
               "@@ -1 +1 @@" ^^ nl; "\ No newline at end of file" ] ++ [])
    = output_lines [] ++ header :: out_body ++ output_lines [] /\
    nth_error out_body 0 = Some ("new file mode 100644" ^^ nl) /\
    nth_error out_body 3 = Some "\ No newline at end of file".
Proof.
  destruct (plain_lines_copied
              [] ("diff --git a/middleware/handler.go b/middleware/handler.go" ^^ nl)
              [ "new file mode 100644" ^^ nl; "--- a/middleware/handler.go" ^^ nl;
                "@@ -1 +1 @@" ^^ nl; "\ No newline at end of file" ] []
              eligible_handler
              ltac:(repeat constructor) I)
    as [header [out_body [O [_ P]]]].
  exists header, out_body. split; [exact O|]. split.
  - apply (P 0); [reflexivity | split; reflexivity].
  - apply (P 3); [reflexivity | split; reflexivity].
Defined.



(** ** The marker lines *)

(** On a line that begins with the [---] marker the replacement removes
    the leading occurrence and goes on through the rest of the line. *)
Lemma rewrite_line_minus_marker (a b r : string) :
  rewrite_line a b ("--- a/middleware/" ^^ r)
  = "--- a/" ^^ replace r "--- a/middleware/" "--- a/".
Proof. reflexivity. Qed.

Lemma rewrite_line_plus_marker (a b r : string) :
  rewrite_line a b ("+++ b/middleware/" ^^ r)
  = "+++ b/" ^^ replace r "+++ b/middleware/" "+++ b/".
Proof. reflexivity. Qed.

(** A text in which [old] does not occur is left as it is. *)
Lemma replace_absent (s old new : string) :
  (forall p q, s <> p ^^ old ^^ q) -> replace s old new = s.
Proof.
  unfold replace. induction s as [|c s IH]; intros H; simpl; [reflexivity|].
  destruct (startswith (String c s) old) eqn:P.
  - apply startswith_true in P as [q E]. exfalso. exact (H EmptyString q E).
  - f_equal. apply IH. intros p q E. apply (H (String c p) q). simpl. now rewrite E.
Qed.

(** Where the literal occurs only at the start of the line, exactly that
    prefix is replaced and the remainder is kept. *)
Lemma minus_marker_prefix_only (a b r : string) :
  (forall p q, r <> p ^^ "--- a/middleware/" ^^ q) ->
  rewrite_line a b ("--- a/middleware/" ^^ r) = "--- a/" ^^ r.
Proof. intros H. now rewrite rewrite_line_minus_marker, replace_absent. Qed.

Lemma plus_marker_prefix_only (a b r : string) :
  (forall p q, r <> p ^^ "+++ b/middleware/" ^^ q) ->
  rewrite_line a b ("+++ b/middleware/" ^^ r) = "+++ b/" ^^ r.
Proof. intros H. now rewrite rewrite_line_plus_marker, replace_absent. Qed.

(** C3, at a line on which the code departs from it.  The file
    [middleware/x--- a/middleware/y] has a path in which the marker
    literal occurs again.  The [---] line of its section begins with
    [--- a/middleware/]; replacing that prefix alone would give
    [--- a/x--- a/middleware/y], the path the rewritten diff-start line
    names, but [str.replace] replaces the second occurrence too and the
    line written is [--- a/x--- a/y]. *)
Theorem marker_replaced_beyond_prefix :
  let d := "diff --git a/middleware/x--- a/middleware/y b/middleware/x--- a/middleware/y" ^^ nl in
  let line := "--- a/middleware/x--- a/middleware/y" ^^ nl in
  startswith line "--- a/middleware/" = true /\
  line = "--- a/middleware/" ^^ ("x--- a/middleware/y" ^^ nl) /\
  re_match_middleware d = Some ("x--- a/middleware/y", "x--- a/middleware/y") /\
  output_lines [d; line]
  = [ "diff --git a/x--- a/middleware/y b/x--- a/middleware/y" ^^ nl;
      "--- a/x--- a/y" ^^ nl ] /\
  nth_error (output_lines [d; line]) 1 <> Some ("--- a/" ^^ ("x--- a/middleware/y" ^^ nl)).
Proof.
  intros d line. repeat split. vm_compute. discriminate.
Qed.

(** ** Counting the sections written *)

Lemma rewrite_line_not_diff_start (a b line : string) :
  is_diff_start line = false -> is_diff_start (rewrite_line a b line) = false.
Proof.
  intros D. unfold rewrite_line. unfold is_diff_start in D. rewrite D.
  destruct (startswith line "--- a/middleware/") eqn:M.
  { apply startswith_true in M as [r ->]. reflexivity. }
  destruct (startswith line "+++ b/middleware/") eqn:P.
  { apply startswith_true in P as [r ->]. reflexivity. }
  exact D.
Qed.





(** ** Headers the pattern splits inside a path *)

(** C1, at a header on which the code departs from it.  The file
    [middleware/x] is renamed to [other/y b/middleware/z], a path
    outside [middleware/]; git writes the header below, whose two paths
    are [middleware/x] and [other/y b/middleware/z].  The pattern finds
    its literal [ b/middleware/] inside the destination path, takes the
    groups [x b/other/y] and [z], and the whole section is written,
    under a header that names a destination [other/y b/z]; the [+++]
    line of the same section, which the marker branch leaves as it
    is, still names the destination outside [middleware/]. *)
Theorem outside_destination_section_written :
  let d := "diff --git a/middleware/x b/other/y b/middleware/z" ^^ nl in
  let lines := [ d; "similarity index 90%" ^^ nl;
                 "rename from middleware/x" ^^ nl;
                 "rename to other/y b/middleware/z" ^^ nl;
                 "--- a/middleware/x" ^^ nl;
                 "+++ b/other/y b/middleware/z" ^^ nl;
                 "@@ -1 +1 @@" ^^ nl ] in
  header_shape d "middleware/x" "other/y b/middleware/z" /\
  startswith "other/y b/middleware/z" "middleware/" = false /\
  re_match_middleware d = Some ("x b/other/y", "z") /\
  output_lines lines
  = [ "diff --git a/x b/other/y b/z" ^^ nl; "similarity index 90%" ^^ nl;
      "rename from middleware/x" ^^ nl;
      "rename to other/y b/middleware/z" ^^ nl;
      "--- a/x" ^^ nl;
      "+++ b/other/y b/middleware/z" ^^ nl;
      "@@ -1 +1 @@" ^^ nl ] /\
  In ("+++ b/other/y b/middleware/z" ^^ nl) (output_lines lines).
Proof.
  intros d lines.
  split; [exists nl; repeat split|].
  split; [reflexivity|]. split; [reflexivity|].
  split; [reflexivity|]. vm_compute. tauto.
Qed.

(** C2, at a header on which the code departs from it.  The file
    [middleware/a b/middleware/c] is changed in place; git writes the
    header below, whose two paths are both [middleware/a b/middleware/c].
    With [middleware/] removed from each side the header would be
    [diff --git a/a b/middleware/c b/a b/middleware/c].  The pattern
    splits at the last [ b/middleware/] instead, inside the second
    path, and the line written is
    [diff --git a/a b/middleware/c b/middleware/a b/c], which cannot be
    read as naming [a b/middleware/c] twice; the [---] and [+++] lines
    of the same section are written with the path [a b/middleware/c]. *)
Theorem header_split_inside_path :
  let d := "diff --git a/middleware/a b/middleware/c b/middleware/a b/middleware/c" ^^ nl in
  let lines := [ d; "--- a/middleware/a b/middleware/c" ^^ nl;
                 "+++ b/middleware/a b/middleware/c" ^^ nl;
                 "@@ -1 +1 @@" ^^ nl ] in
  header_shape d "middleware/a b/middleware/c" "middleware/a b/middleware/c" /\
  re_match_middleware d = Some ("a b/middleware/c b/middleware/a", "c") /\
  output_lines lines
  = [ "diff --git a/a b/middleware/c b/middleware/a b/c" ^^ nl;
      "--- a/a b/middleware/c" ^^ nl;
      "+++ b/a b/middleware/c" ^^ nl;
      "@@ -1 +1 @@" ^^ nl ] /\
  nth_error (output_lines lines) 0
  <> Some ("diff --git a/" ^^ "a b/middleware/c" ^^ " b/" ^^ "a b/middleware/c" ^^ nl) /\
  (forall header, nth_error (output_lines lines) 0 = Some header ->
                  ~ header_shape header "a b/middleware/c" "a b/middleware/c").
Proof.
  intros d lines.
  split; [exists nl; repeat split|].
  split; [reflexivity|]. split; [reflexivity|].
  split; [vm_compute; discriminate|].
  intros header H. vm_compute in H. injection H as <-.
  intros [tail [E _]]. vm_compute in E. discriminate.
Qed.

(** ** Runs of the script *)

Lemma length_three (argv : list string) :
  length argv = 3 -> exists prog inp outp, argv = [prog; inp; outp].
Proof.
  destruct argv as [|a [|b [|c [|e argv]]]]; try discriminate. intros _. eauto.
Qed.

(** A run that reads its input and finds a diff-start line. *)
Lemma run_with_diff (fs : filesystem) (prog inp outp : string) (lines : list string) :
  read_lines fs inp = inl lines ->
  scan_patch lines <> None ->
  write_error fs outp (output_lines lines) = None ->
  run fs [prog; inp; outp]
  = (Ok tt,
     [ OpenRead inp; OpenWrite outp; Written outp (output_lines lines);
       Print ("Filtered patch written to: " ^^ outp);
       Print ("Processed " ^^ str_of_nat (count_diff_lines (output_lines lines))
              ^^ " middleware diff sections") ]).
Proof.
  intros R S W.
  assert (E : scan_patch lines = Some (Ok (output_lines lines))).
  { rewrite output_lines_spec. rewrite scan_patch_spec in S |- *.
    destruct (find_start lines 0); [reflexivity | contradiction]. }
  unfold run, main. cbn [length Nat.eqb negb nth].
  unfold try_except, process_patch_file, iobind, readlines.
  rewrite R, E. unfold lift, writelines. rewrite W. reflexivity.
Qed.

(** A run that reads its input and finds no diff-start line. *)
Lemma run_without_diff (fs : filesystem) (prog inp outp : string) (lines : list string) :
  read_lines fs inp = inl lines ->
  scan_patch lines = None ->
  run fs [prog; inp; outp]
  = (Ok tt, [ OpenRead inp; Print "No 'diff --git' found in the patch file" ]).
Proof.
  intros R S. unfold run, main. cbn [length Nat.eqb negb nth].
  unfold try_except, process_patch_file, iobind, readlines.
  rewrite R, S. reflexivity.
Qed.



(** C5 as stated fails.  The document below holds one line, written by
    git with mnemonic prefixes; it is not of the format
    [diff --git a/<path> b/<path>], yet it starts with [diff --git], so
    the run goes on to write an (empty) output file and prints no
    notice. *)
Lemma file_written_without_marker :
  let lines := [ "diff --git i/src/main.c w/src/main.c" ^^ nl ] in
  (forall l, In l lines -> ~ is_marker l) /\
  run (one_file "in.patch" lines) ["prog"; "in.patch"; "out.patch"]
  = (Ok tt,
     [ OpenRead "in.patch"; OpenWrite "out.patch"; Written "out.patch" [];
       Print "Filtered patch written to: out.patch";
       Print "Processed 0 middleware diff sections" ]) /\
  wrote_file (snd (run (one_file "in.patch" lines) ["prog"; "in.patch"; "out.patch"]))
  = true.
Proof.
  intros lines. split; [|split; reflexivity].
  intros l [<- | []] [a [b [tail [E _]]]]. simpl in E. discriminate.
Qed.

(** C5, amended.  When no line of the input starts with [diff --git],
    the run reads the input, prints the notice and returns: nothing is
    opened for writing, no exception is raised and the exit status is 0. *)
Theorem no_diff_line_soft_failure
        (fs : filesystem) (prog inp outp : string) (lines : list string) :
  read_lines fs inp = inl lines ->
  Forall (fun l => is_diff_start l = false) lines ->
  run fs [prog; inp; outp]
  = (Ok tt, [ OpenRead inp; Print "No 'diff --git' found in the patch file" ]) /\
  exit_status (fst (run fs [prog; inp; outp])) = Some 0%Z /\
  wrote_file (snd (run fs [prog; inp; outp])) = false.
Proof.
  intros R F.
  assert (E : run fs [prog; inp; outp]
              = (Ok tt, [ OpenRead inp; Print "No 'diff --git' found in the patch file" ])).
  { apply run_without_diff with (lines := lines); [exact R|].
    unfold scan_patch. now rewrite (proj2 (find_start_None lines) F). }
  rewrite E. repeat split.
Qed.

Lemma no_diff_line_soft_failure_witness :
  let lines := [ "From 0123 Mon Sep 17" ^^ nl; "Subject: nothing" ^^ nl ] in
  Forall (fun l => is_diff_start l = false) lines /\
  exit_status (fst (run (one_file "in.patch" lines) ["prog"; "in.patch"; "out.patch"]))
  = Some 0%Z /\
  wrote_file (snd (run (one_file "in.patch" lines) ["prog"; "in.patch"; "out.patch"]))
  = false.
Proof.
  intros lines.
  assert (F : Forall (fun l => is_diff_start l = false) lines) by (repeat constructor).
  split; [exact F|].
  exact (proj2 (no_diff_line_soft_failure (one_file "in.patch" lines)
                  "prog" "in.patch" "out.patch" lines eq_refl F)).
Defined.

(** C9.  With [sys.argv] holding other than two arguments after the
    program name, the run prints the usage line and the example line and
    exits with status 1; it opens no file, for reading or for writing. *)
Theorem wrong_argument_count (fs : filesystem) (argv : list string) :
  length (tl argv) <> 2 ->
  run fs argv = (Raise (SystemExit 1), [ Print usage_line; Print example_line ]) /\
  exit_status (fst (run fs argv)) = Some 1%Z /\
  read_file (snd (run fs argv)) = false /\
  wrote_file (snd (run fs argv)) = false.
Proof.
  intros H.
  assert (E : run fs argv
              = (Raise (SystemExit 1), [ Print usage_line; Print example_line ])).
  { unfold run, main.
    destruct (length argv =? 3) eqn:L; [|reflexivity].
    apply Nat.eqb_eq, length_three in L as [p [i [o ->]]]. simpl in H. lia. }
  rewrite E. repeat split.
Qed.

Lemma wrong_argument_count_witness :
  run (one_file "in.patch" []) ["prog"; "in.patch"]
  = (Raise (SystemExit 1), [ Print usage_line; Print example_line ]) /\
  run (one_file "in.patch" []) ["prog"; "in.patch"; "out.patch"; "extra"]
  = (Raise (SystemExit 1), [ Print usage_line; Print example_line ]).
Proof.
  split.
  - refine (proj1 (wrong_argument_count _ ["prog"; "in.patch"] _)). simpl. lia.
  - refine (proj1 (wrong_argument_count _ ["prog"; "in.patch"; "out.patch"; "extra"] _)).
    simpl. lia.
Defined.

(** ** Further properties of the scan *)

Lemma after_body_preamble (preamble rest : list string) :
  Forall (fun l => is_diff_start l = false) preamble ->
  after_body (preamble ++ rest) = after_body rest.
Proof. induction 1 as [|x l D _ IH]; simpl; [reflexivity | now rewrite D]. Qed.

Lemma find_start_existsb (lines : list string) :
  existsb is_diff_start lines = true <-> find_start lines 0 <> None.
Proof.
  split.
  - intros E N. apply find_start_None in N.
    apply existsb_exists in E as [x [Hx Dx]].
    rewrite (proj1 (Forall_forall _ _) N x Hx) in Dx. discriminate.
  - intros N. destruct (existsb is_diff_start lines) eqn:E; [reflexivity|].
    exfalso. apply N, find_start_None, Forall_forall. intros x Hx.
    destruct (is_diff_start x) eqn:D; [|reflexivity].
    assert (T : existsb is_diff_start lines = true)
      by (apply existsb_exists; eauto).
    congruence.
Qed.

(** X1.  Lines before the first diff-start line never reach the output
    and do not change the outcome: with or without them the scan gives
    the same result. *)
Theorem preamble_dropped (preamble rest : list string) :
  Forall (fun l => is_diff_start l = false) preamble ->
  scan_patch (preamble ++ rest) = scan_patch rest /\
  output_lines (preamble ++ rest) = output_lines rest.
Proof.
  intros F.
  assert (E : expected_output (preamble ++ rest) = expected_output rest).
  { rewrite <- (expected_output_skip_body (preamble ++ rest)),
            <- (expected_output_skip_body rest).
    now rewrite after_body_preamble. }
  split.
  - rewrite !scan_patch_spec, !find_start_spec, after_body_preamble, E by exact F.
    now destruct (after_body rest).
  - now rewrite !output_lines_spec.
Qed.

Lemma preamble_dropped_witness :
  output_lines
    ([ "From 0123 Mon Sep 17" ^^ nl; "Subject: [PATCH] fix" ^^ nl; "---" ^^ nl ] ++
     [ "diff --git a/middleware/h.go b/middleware/h.go" ^^ nl; "+y" ^^ nl ])
  = output_lines [ "diff --git a/middleware/h.go b/middleware/h.go" ^^ nl; "+y" ^^ nl ].
Proof.
  exact (proj2 (preamble_dropped
                  [ "From 0123 Mon Sep 17" ^^ nl; "Subject: [PATCH] fix" ^^ nl; "---" ^^ nl ]
                  [ "diff --git a/middleware/h.go b/middleware/h.go" ^^ nl; "+y" ^^ nl ]
                  ltac:(repeat constructor))).
Defined.

(** X2.  The scan of [process_patch_file] never fails and never runs
    out of iterations: it yields nothing when no line starts with
    [diff --git], and otherwise the rewritten matching sections of the
    document, concatenated in their order, every other section left
    out. *)
Theorem scan_is_rewritten_sections (lines : list string) :
  scan_patch lines =
  if existsb is_diff_start lines
  then Some (Ok (flat_map contribution (sections lines)))
  else None.
Proof.
  rewrite scan_patch_spec.
  destruct (existsb is_diff_start lines) eqn:E.
  - apply find_start_existsb in E. now destruct (find_start lines 0).
  - destruct (find_start lines 0) eqn:F; [|reflexivity].
    assert (T : existsb is_diff_start lines = true)
      by (apply find_start_existsb; congruence).
    congruence.
Qed.

Lemma contribution_shape (x : string) (l : list string) :
  is_diff_start x = true ->
  (eligible_section (x :: body l) = true /\
   exists header out_body,
     contribution (x :: body l) = header :: out_body /\
     is_diff_start header = true /\
     Forall (fun y => is_diff_start y = false) out_body /\
     length out_body = length (body l)) \/
  (eligible_section (x :: body l) = false /\ contribution (x :: body l) = []).
Proof.
  intros D. unfold eligible_section.
  destruct (re_match_middleware x) as [[g1 g2]|] eqn:M.
  - left. split; [reflexivity|].
    exists ("diff --git a/" ^^ g1 ^^ " b/" ^^ g2 ^^ nl), (map (rewrite_line g1 g2) (body l)).
    split; [now apply contribution_eligible|]. split; [reflexivity|].
    split; [|apply length_map].
    apply Forall_forall. intros y Hy. apply in_map_iff in Hy as [z [<- Hz]].
    apply rewrite_line_not_diff_start.
    exact (proj1 (Forall_forall _ _) (body_not_diff_start l) z Hz).
  - right. split; [reflexivity|]. unfold contribution. now rewrite M.
Qed.

Lemma sections_of_expected_output (l : list string) :
  sections (expected_output l) = map contribution (filter eligible_section (sections l)) /\
  at_boundary (expected_output l).
Proof.
  induction l as [|x l [IH B]]; [split; [reflexivity | exact I]|].
  rewrite expected_output_cons. cbn [sections].
  destruct (is_diff_start x) eqn:D; [|split; assumption].
  cbn [filter].
  destruct (contribution_shape x l D) as [[E [h [ob [C [Dh [Fo _]]]]]] | [E C]];
    rewrite E, C.
  - split; [|exact Dh].
    rewrite <- app_comm_cons, sections_cons_section by assumption.
    cbn [map]. now rewrite C, IH.
  - split; assumption.
Qed.

(** X3.  Cutting the output into its diff sections gives back exactly
    the rewritten matching sections of the input, one output section
    per matching input section and in the same order: no two of them
    merge and none is split. *)
Theorem output_sections_are_eligible_sections (lines : list string) :
  sections (output_lines lines)
  = map contribution (filter eligible_section (sections lines)).
Proof. rewrite output_lines_spec. apply sections_of_expected_output. Qed.

Lemma length_concat_filter (f : list string -> bool) (secs : list (list string)) :
  length (concat (filter f secs)) <= length (concat secs).
Proof.
  induction secs as [|s secs IH]; simpl; [lia|].
  destruct (f s); simpl; rewrite !length_app; lia.
Qed.

(** X4.  The output has exactly as many lines as the matching sections
    of the input hold, so never more lines than the input. *)
Theorem output_length (lines : list string) :
  length (output_lines lines)
  = length (concat (filter eligible_section (sections lines))) /\
  length (output_lines lines) <= length lines.
Proof.
  assert (E : length (output_lines lines)
              = length (concat (filter eligible_section (sections lines)))).
  { rewrite output_lines_spec. induction lines as [|x l IH]; [reflexivity|].
    rewrite expected_output_cons, length_app, IH. cbn [sections].
    destruct (is_diff_start x) eqn:D; [|reflexivity].
    cbn [filter].
    destruct (contribution_shape x l D) as [[E [h [ob [C [_ [_ L]]]]]] | [E C]];
      rewrite E, C; simpl; [rewrite length_app; simpl; lia | reflexivity]. }
  split; [exact E|]. rewrite E.
  pose proof (length_concat_filter eligible_section (sections lines)) as L1.
  rewrite sections_partition in L1.
  pose proof (after_body_length lines). lia.
Qed.

(** X5.  The filter distributes over concatenation at a section
    boundary: when the second part is empty or begins with a diff-start
    line, the output for the whole is the output for the first part
    followed by the output for the second. *)
Theorem output_of_concatenation (first second : list string) :
  at_boundary second ->
  output_lines (first ++ second) = output_lines first ++ output_lines second.
Proof. apply output_lines_app. Qed.

Lemma output_of_concatenation_witness :
  output_lines
    ([ "diff --git a/middleware/a.c b/middleware/a.c" ^^ nl; "+1" ^^ nl ] ++
     [ "diff --git a/middleware/b.c b/middleware/b.c" ^^ nl; "+2" ^^ nl ])
  = output_lines [ "diff --git a/middleware/a.c b/middleware/a.c" ^^ nl; "+1" ^^ nl ]
    ++ output_lines [ "diff --git a/middleware/b.c b/middleware/b.c" ^^ nl; "+2" ^^ nl ].
Proof.
  exact (output_of_concatenation
           [ "diff --git a/middleware/a.c b/middleware/a.c" ^^ nl; "+1" ^^ nl ]
           [ "diff --git a/middleware/b.c b/middleware/b.c" ^^ nl; "+2" ^^ nl ]
           eq_refl).
Defined.

(** ** Further properties of the helpers *)

Lemma split_at (lines : list string) (start : nat) :
  start <= length lines ->
  lines = firstn start lines ++ skipn start lines /\ length (firstn start lines) = start.
Proof.
  intros H. split; [now rewrite firstn_skipn | apply firstn_length_le; exact H].
Qed.

(** X6.  Called with a start index from 0 on, [skip_to_next_diff] does
    not raise.  From a start index inside the document, or just past
    its end, it returns the first index from there on that holds a
    diff-start line, the length of the document when there is none;
    from a start index beyond that it returns the length of the
    document, an index before the start. *)
Theorem skip_to_next_diff_finds_next (lines : list string) (start : nat) :
  exists j,
    skip_to_next_diff lines start = Ok j /\
    j <= length lines /\
    (forall l, nth_error lines j = Some l -> is_diff_start l = true) /\
    (forall k l, start <= k < j -> nth_error lines k = Some l -> is_diff_start l = false) /\
    (if start <=? length lines then start <= j else j = length lines).
Proof.
  destruct (Nat.leb_spec start (length lines)) as [H|H].
  - destruct (split_at lines start H) as [E L].
    set (pre := firstn start lines) in *. set (suf := skipn start lines) in *.
    exists (start + length (body suf)).
    pose proof (body_length suf) as Lb.
    assert (Ls : length lines = start + length suf)
      by (rewrite E, length_app, L; reflexivity).
    split; [|split; [|split; [|split]]].
    + rewrite E, <- L. apply skip_to_next_diff_spec.
    + lia.
    + intros l Hl. rewrite E, nth_error_app2 in Hl by lia.
      replace (start + length (body suf) - length pre) with (length (body suf)) in Hl by lia.
      now apply nth_error_after_body in Hl.
    + intros k l Hk Hl. rewrite E, nth_error_app2 in Hl by lia.
      apply (nth_error_in_body suf (k - length pre)); [lia | exact Hl].
    + lia.
  - exists (length lines). unfold skip_to_next_diff.
    replace (length lines - start) with 0 by lia. simpl.
    split; [reflexivity|]. split; [lia|]. split; [|split; [|reflexivity]].
    + intros l Hl. assert (nth_error lines (length lines) = None)
        by (apply nth_error_None; lia). congruence.
    + intros k l Hk. lia.
Qed.

(** X7.  Called with a start index from 0 on, [collect_diff_section]
    raises [IndexError] exactly when that index is not below the length
    of the document.  Below it, the call returns a section that begins
    with the line at the start index, whether or not that line is a
    diff-start line, goes on with lines that are no diff-start lines,
    and stays within the document. *)
Theorem collect_diff_section_bounds (lines : list string) (start : nat) :
  match nth_error lines start with
  | None =>
      length lines <= start /\ collect_diff_section lines start = Raise IndexError
  | Some line =>
      exists rest,
        collect_diff_section lines start = Ok (line :: rest) /\
        Forall (fun l => is_diff_start l = false) rest /\
        start + length (line :: rest) <= length lines /\
        line :: rest = firstn (length (line :: rest)) (skipn start lines)
  end.
Proof.
  destruct (nth_error lines start) as [line|] eqn:H.
  - destruct (nth_error_split lines start H) as [pre [suf [-> <-]]].
    exists (body suf). rewrite collect_diff_section_spec.
    pose proof (body_length suf) as Lb.
    split; [reflexivity|]. split; [apply body_not_diff_start|].
    split; [rewrite length_app; simpl; lia|].
    replace (skipn (length pre) (pre ++ line :: suf)) with (line :: suf)
      by (rewrite skipn_app, skipn_all, Nat.sub_diag; reflexivity).
    simpl. now rewrite firstn_body.
  - split; [now apply nth_error_None|].
    unfold collect_diff_section. now rewrite H.
Qed.

(** X8.  The search for the start of the diff content returns the index
    of the first line that starts with [diff --git]: that line is a
    diff-start line and no line before it is one; it returns nothing
    exactly when no line of the document is a diff-start line. *)
Theorem find_start_first_diff (lines : list string) :
  match find_start lines 0 with
  | Some start_index =>
      (exists line, nth_error lines start_index = Some line /\ is_diff_start line = true) /\
      (forall k l, k < start_index -> nth_error lines k = Some l -> is_diff_start l = false)
  | None => forall l, In l lines -> is_diff_start l = false
  end.
Proof.
  destruct (find_start lines 0) as [s|] eqn:F.
  - rewrite find_start_spec in F.
    destruct (after_body lines) as [|d rest] eqn:A; [discriminate|].
    injection F as <-. simpl. split.
    + exists d. split.
      * rewrite <- (body_after_body lines) at 1.
        rewrite nth_error_app2, Nat.sub_diag, A by lia. reflexivity.
      * pose proof (after_body_boundary lines) as B. rewrite A in B. exact B.
    + intros k l Hk Hl. now apply (nth_error_in_body lines k).
  - apply find_start_None in F. now apply Forall_forall.
Qed.

(** X9.  The pattern is greedy in its first group: among all the ways
    to read a matched line as [diff --git a/middleware/<h>], the
    literal [ b/middleware/] and a remainder, with [<h>] free of
    newlines, the match takes the longest [<h>], so a line in which the
    literal occurs more than once is split at its last occurrence. *)
Theorem header_split_at_last_separator (line g1 g2 h r : string) :
  re_match_middleware line = Some (g1, g2) ->
  line = "diff --git a/middleware/" ^^ h ^^ " b/middleware/" ^^ r ->
  no_newline h ->
  String.length h <= String.length g1.
Proof.
  unfold re_match_middleware. intros M E N.
  destruct (strip_prefix "diff --git a/middleware/" line) as [s|] eqn:P; [|discriminate].
  apply strip_prefix_Some in P. rewrite P in E.
  assert (Es : s = h ^^ " b/middleware/" ^^ r) by (simpl in E; now injection E).
  exact (match_groups_greedy s g1 g2 h r M Es N).
Qed.

Lemma header_split_at_last_separator_witness :
  re_match_middleware "diff --git a/middleware/x b/middleware/y b/middleware/z"
  = Some ("x b/middleware/y", "z") /\
  String.length "x" <= String.length "x b/middleware/y".
Proof.
  split; [reflexivity|].
  exact (header_split_at_last_separator
           "diff --git a/middleware/x b/middleware/y b/middleware/z"
           "x b/middleware/y" "z" "x" "y b/middleware/z" eq_refl eq_refl eq_refl).
Defined.

(** X10.  In a matching section, a line that begins with
    [--- a/middleware/] (or [+++ b/middleware/]) and holds that literal
    nowhere else is written with just that prefix shortened to
    [--- a/] (or [+++ b/]), the rest of the line as it was. *)
Theorem marker_prefix_stripped_when_unique
        (d : string) (bd : list string) (g1 g2 : string) (k : nat) (r : string) :
  re_match_middleware d = Some (g1, g2) ->
  (nth_error bd k = Some ("--- a/middleware/" ^^ r) ->
   (forall p q, r <> p ^^ "--- a/middleware/" ^^ q) ->
   nth_error (process_middleware_section (d :: bd) g1 g2) (S k) = Some ("--- a/" ^^ r)) /\
  (nth_error bd k = Some ("+++ b/middleware/" ^^ r) ->
   (forall p q, r <> p ^^ "+++ b/middleware/" ^^ q) ->
   nth_error (process_middleware_section (d :: bd) g1 g2) (S k) = Some ("+++ b/" ^^ r)).
Proof.
  intros M. rewrite process_middleware_section_map. cbn [map nth_error].
  split; intros Hk U; rewrite nth_error_map, Hk; cbn [option_map]; f_equal.
  - now apply minus_marker_prefix_only.
  - now apply plus_marker_prefix_only.
Qed.

Lemma string_length_app (a b : string) :
  String.length (a ^^ b) = String.length a + String.length b.
Proof. induction a as [|c a IH]; simpl; [reflexivity | now rewrite IH]. Qed.

Lemma no_occurrence_handler (p q : string) :
  "handler.go" <> p ^^ "--- a/middleware/" ^^ q.
Proof.
  intros E.
  assert (L : String.length "handler.go"
              = String.length (p ^^ "--- a/middleware/" ^^ q)) by now rewrite <- E.
  rewrite !string_length_app in L. simpl in L. lia.
Qed.

Lemma marker_prefix_stripped_when_unique_witness :
  nth_error
    (process_middleware_section
       [ "diff --git a/middleware/handler.go b/middleware/handler.go";
         "--- a/middleware/handler.go" ] "handler.go" "handler.go") 1
  = Some "--- a/handler.go".
Proof.
  exact (proj1 (marker_prefix_stripped_when_unique
                  "diff --git a/middleware/handler.go b/middleware/handler.go"
                  [ "--- a/middleware/handler.go" ] "handler.go" "handler.go" 0
                  "handler.go" eq_refl)
               eq_refl no_occurrence_handler).
Defined.

(** X11.  The diff-start line written for a matching section always
    ends with a newline: a matching diff-start line that has no
    terminator, as the last line of a file may, is written with one
    added. *)
Theorem header_gains_newline (d g1 g2 : string) :
  re_match_middleware d = Some (g1, g2) ->
  no_newline d ->
  d = "diff --git a/middleware/" ^^ g1 ^^ " b/middleware/" ^^ g2 /\
  output_lines [d] = [ "diff --git a/" ^^ g1 ^^ " b/" ^^ g2 ^^ nl ].
Proof.
  intros M N. split.
  - destruct (re_match_middleware_sound _ _ _ M) as [tail [E [T [N1 N2]]]].
    assert (P1 : no_newline g1)
      by (simpl in N1; repeat (apply no_newline_cons in N1 as [_ N1]); exact N1).
    assert (P2 : no_newline g2)
      by (simpl in N2; repeat (apply no_newline_cons in N2 as [_ N2]); exact N2).
    assert (E2 : d = ("diff --git a/middleware/" ^^ g1 ^^ " b/middleware/" ^^ g2) ^^ tail).
    { rewrite E, !string_app_assoc. reflexivity. }
    unfold no_newline in N. rewrite <- N, E2. apply dot_star_app_tail; [|exact T].
    apply (no_newline_app "diff --git a/middleware/"); [reflexivity|].
    apply no_newline_app; [exact P1|].
    apply (no_newline_app " b/middleware/"); [reflexivity | exact P2].
  - pose proof (output_lines_section [] d [] []
                  (re_match_is_diff_start _ _ _ M) (Forall_nil _) I) as S.
    rewrite (contribution_eligible d [] g1 g2 M) in S. exact S.
Qed.

Lemma header_gains_newline_witness :
  output_lines [ "diff --git a/middleware/h.go b/middleware/h.go" ]
  = [ "diff --git a/" ^^ "h.go" ^^ " b/" ^^ "h.go" ^^ nl ].
Proof.
  exact (proj2 (header_gains_newline
                  "diff --git a/middleware/h.go b/middleware/h.go" "h.go" "h.go"
                  eq_refl eq_refl)).
Defined.

(** ** Further properties of a run *)

(** A run with two arguments, case by case. *)
Lemma run_three_args (fs : filesystem) (prog inp outp : string) :
  run fs [prog; inp; outp] =
  match read_lines fs inp with
  | inr e => handled inp e [OpenRead inp]
  | inl lines =>
      match scan_patch lines with
      | None => (Ok tt, [ OpenRead inp; Print "No 'diff --git' found in the patch file" ])
      | Some _ =>
          match write_error fs outp (output_lines lines) with
          | Some e => handled inp e [ OpenRead inp; OpenWrite outp ]
          | None =>
              (Ok tt,
               [ OpenRead inp; OpenWrite outp; Written outp (output_lines lines);
                 Print ("Filtered patch written to: " ^^ outp);
                 Print ("Processed "
                        ^^ str_of_nat (count_diff_lines (output_lines lines))
                        ^^ " middleware diff sections") ])
          end
      end
  end.
Proof.
  destruct (read_lines fs inp) as [lines|e] eqn:R.
  - destruct (scan_patch lines) as [scan|] eqn:S.
    + destruct (write_error fs outp (output_lines lines)) as [e|] eqn:W.
      * assert (E : scan_patch lines = Some (Ok (output_lines lines))).
        { rewrite output_lines_spec. rewrite scan_patch_spec in S |- *.
          destruct (find_start lines 0); [reflexivity | discriminate]. }
        unfold run, main. cbn [length Nat.eqb negb nth].
        unfold try_except, process_patch_file, iobind, readlines.
        rewrite R, E. unfold lift, writelines. rewrite W.
        destruct e; reflexivity.
      * apply run_with_diff with (lines := lines); congruence.
    + now apply run_without_diff with (lines := lines).
  - unfold run, main. cbn [length Nat.eqb negb nth].
    unfold try_except, process_patch_file, iobind, readlines. rewrite R.
    destruct e; reflexivity.
Qed.

Lemma expected_output_no_match (l : list string) :
  (forall x, In x l -> re_match_middleware x = None) -> expected_output l = [].
Proof.
  induction l as [|x l IH]; intros H; [reflexivity|].
  rewrite expected_output_cons, IH by (intros y Hy; apply H; now right).
  rewrite app_nil_r. destruct (is_diff_start x); [|reflexivity].
  unfold contribution. now rewrite (H x (or_introl eq_refl)).
Qed.

Lemma scan_patch_some (lines : list string) :
  existsb is_diff_start lines = true ->
  scan_patch lines = Some (Ok (output_lines lines)).
Proof.
  intros D. apply find_start_existsb in D.
  rewrite output_lines_spec, scan_patch_spec.
  destruct (find_start lines 0); [reflexivity | contradiction].
Qed.

(** X12.  When the input has diff sections but none matches, the run
    still opens the output file and writes it empty, reports 0 sections
    and returns with exit status 0. *)
Theorem no_matching_section_writes_empty_file
        (fs : filesystem) (prog inp outp : string) (lines : list string) :
  read_lines fs inp = inl lines ->
  existsb is_diff_start lines = true ->
  (forall l, In l lines -> re_match_middleware l = None) ->
  write_error fs outp [] = None ->
  run fs [prog; inp; outp]
  = (Ok tt,
     [ OpenRead inp; OpenWrite outp; Written outp [];
       Print ("Filtered patch written to: " ^^ outp);
       Print "Processed 0 middleware diff sections" ]) /\
  exit_status (fst (run fs [prog; inp; outp])) = Some 0%Z.
Proof.
  intros R D N W.
  assert (O : output_lines lines = [])
    by (rewrite output_lines_spec; now apply expected_output_no_match).
  assert (E : run fs [prog; inp; outp]
              = (Ok tt,
                 [ OpenRead inp; OpenWrite outp; Written outp [];
                   Print ("Filtered patch written to: " ^^ outp);
                   Print "Processed 0 middleware diff sections" ])).
  { rewrite run_three_args, R, scan_patch_some by exact D.
    rewrite O, W. reflexivity. }
  rewrite E. split; reflexivity.
Qed.

Lemma no_matching_section_writes_empty_file_witness :
  run (one_file "in.patch" [ "diff --git a/foo.py b/foo.py" ^^ nl; "+x" ^^ nl ])
      ["prog"; "in.patch"; "out.patch"]
  = (Ok tt,
     [ OpenRead "in.patch"; OpenWrite "out.patch"; Written "out.patch" [];
       Print ("Filtered patch written to: " ^^ "out.patch");
       Print "Processed 0 middleware diff sections" ]).
Proof.
  refine (proj1 (no_matching_section_writes_empty_file
                   (one_file "in.patch" [ "diff --git a/foo.py b/foo.py" ^^ nl; "+x" ^^ nl ])
                   "prog" "in.patch" "out.patch"
                   [ "diff --git a/foo.py b/foo.py" ^^ nl; "+x" ^^ nl ]
                   eq_refl eq_refl _ eq_refl)).
  intros l [<- | [<- | []]]; reflexivity.
Defined.

(** X13.  When the input cannot be read, nothing is opened for writing
    and the run exits with status 1 after one message: the one naming
    the input file for [FileNotFoundError], the one carrying the text
    of the exception for any other [Exception]. *)
Theorem unreadable_input_reported
        (fs : filesystem) (prog inp outp : string) (e : exn) :
  read_lines fs inp = inr e ->
  is_exception e = true ->
  run fs [prog; inp; outp]
  = (Raise (SystemExit 1),
     [ OpenRead inp;
       Print (match e with
              | FileNotFoundError => "Error: Input file '" ^^ inp ^^ "' not found"
              | _ => "Error processing patch file: " ^^ str_of_exn e
              end) ]) /\
  wrote_file (snd (run fs [prog; inp; outp])) = false.
Proof.
  intros R X. rewrite run_three_args, R.
  destruct e; try discriminate; split; reflexivity.
Qed.

Lemma unreadable_input_reported_witness :
  let fs := {| read_lines := fun _ => inr (OtherError "Permission denied");
               write_error := fun _ _ => None |} in
  run fs ["prog"; "in.patch"; "out.patch"]
  = (Raise (SystemExit 1),
     [ OpenRead "in.patch"; Print "Error processing patch file: Permission denied" ]).
Proof.
  intros fs.
  exact (proj1 (unreadable_input_reported fs "prog" "in.patch" "out.patch"
                  (OtherError "Permission denied") eq_refl eq_refl)).
Defined.

(** X14.  When the input holds a diff-start line and the output cannot
    be written, neither closing message is printed and the run exits
    with status 1.  The message is chosen by the exception alone: a
    [FileNotFoundError] raised for the output path (a missing
    directory) is reported as the input file not being found. *)
Theorem unwritable_output_reported
        (fs : filesystem) (prog inp outp : string) (lines : list string) (e : exn) :
  read_lines fs inp = inl lines ->
  existsb is_diff_start lines = true ->
  write_error fs outp (output_lines lines) = Some e ->
  is_exception e = true ->
  run fs [prog; inp; outp]
  = (Raise (SystemExit 1),
     [ OpenRead inp; OpenWrite outp;
       Print (match e with
              | FileNotFoundError => "Error: Input file '" ^^ inp ^^ "' not found"
              | _ => "Error processing patch file: " ^^ str_of_exn e
              end) ]).
Proof.
  intros R D W X. rewrite run_three_args, R, scan_patch_some, W by exact D.
  destruct e; try discriminate; reflexivity.
Qed.

Lemma unwritable_output_reported_witness :
  let lines := [ "diff --git a/middleware/h.go b/middleware/h.go" ^^ nl ] in
  let fs := {| read_lines := fun _ => inl lines;
               write_error := fun _ _ => Some FileNotFoundError |} in
  run fs ["prog"; "in.patch"; "missing/out.patch"]
  = (Raise (SystemExit 1),
     [ OpenRead "in.patch"; OpenWrite "missing/out.patch";
       Print "Error: Input file 'in.patch' not found" ]).
Proof.
  intros lines fs.
  exact (unwritable_output_reported fs "prog" "in.patch" "missing/out.patch" lines
           FileNotFoundError eq_refl eq_refl eq_refl eq_refl).
Defined.

Lemma run_wrong_count (fs : filesystem) (argv : list string) :
  (length argv =? 3) = false ->
  run fs argv = (Raise (SystemExit 1), [ Print usage_line; Print example_line ]).
Proof. intros L. unfold run, main. now rewrite L. Qed.

(** X15.  Over a file system whose failures are exceptions, every run
    ends in one of two ways, whatever the arguments and the files: it
    returns (exit status 0) or it exits with status 1.  No exception
    escapes [main], and the scan never exhausts its iterations. *)
Theorem run_exit_status (fs : filesystem) (argv : list string) :
  raises_exceptions_only fs ->
  (fst (run fs argv) = Ok tt /\ exit_status (fst (run fs argv)) = Some 0%Z) \/
  (fst (run fs argv) = Raise (SystemExit 1) /\
   exit_status (fst (run fs argv)) = Some 1%Z).
Proof.
  intros [Hr Hw].
  destruct (length argv =? 3) eqn:L.
  - apply Nat.eqb_eq, length_three in L as [prog [inp [outp ->]]].
    rewrite run_three_args.
    destruct (read_lines fs inp) as [lines|e] eqn:R.
    + destruct (scan_patch lines); [|left; split; reflexivity].
      destruct (write_error fs outp (output_lines lines)) as [e|] eqn:W;
        [|left; split; reflexivity].
      specialize (Hw _ _ _ W). destruct e; try discriminate; right; split; reflexivity.
    + specialize (Hr _ _ R). destruct e; try discriminate; right; split; reflexivity.
  - rewrite run_wrong_count by exact L. right. split; reflexivity.
Qed.

Lemma one_file_raises_exceptions_only (name : string) (lines : list string) :
  raises_exceptions_only (one_file name lines).
Proof.
  split.
  - intros path e. simpl. destruct (String.eqb path name); [discriminate|].
    now intros [= <-].
  - intros path content e. discriminate.
Qed.

Lemma run_exit_status_witness :
  (fst (run (one_file "in.patch" []) ["prog"; "gone.patch"; "out.patch"]) = Ok tt /\
   exit_status (fst (run (one_file "in.patch" []) ["prog"; "gone.patch"; "out.patch"]))
   = Some 0%Z) \/
  (fst (run (one_file "in.patch" []) ["prog"; "gone.patch"; "out.patch"])
   = Raise (SystemExit 1) /\
   exit_status (fst (run (one_file "in.patch" []) ["prog"; "gone.patch"; "out.patch"]))
   = Some 1%Z).
Proof.
  exact (run_exit_status (one_file "in.patch" []) ["prog"; "gone.patch"; "out.patch"]
           (one_file_raises_exceptions_only "in.patch" [])).
Defined.

(** X16.  A run touches at most two files and in a fixed order: it
    opens [argv[1]] for reading at most once, then opens [argv[2]] for
    writing at most once, then writes it at most once, and touches no
    other path; the output is never opened before the input has been
    read. *)
Theorem run_file_discipline (fs : filesystem) (argv : list string) :
  exists content rest,
    [ OpenRead (nth 1 argv EmptyString); OpenWrite (nth 2 argv EmptyString);
      Written (nth 2 argv EmptyString) content ]
    = file_events (snd (run fs argv)) ++ rest.
Proof.
  destruct (length argv =? 3) eqn:L.
  - apply Nat.eqb_eq, length_three in L as [prog [inp [outp ->]]].
    rewrite run_three_args. cbn [nth].
    destruct (read_lines fs inp) as [lines|e].
    + destruct (scan_patch lines).
      * destruct (write_error fs outp (output_lines lines)) as [e|].
        -- exists [], [Written outp []]. destruct e; reflexivity.
        -- exists (output_lines lines), []. reflexivity.
      * exists [], [OpenWrite outp; Written outp []]. reflexivity.
    + exists [], [OpenWrite outp; Written outp []]. destruct e; reflexivity.
  - rewrite run_wrong_count by exact L.
    exists [], [ OpenRead (nth 1 argv EmptyString); OpenWrite (nth 2 argv EmptyString);
                 Written (nth 2 argv EmptyString) [] ].
    reflexivity.
Qed.
